(** * TaskMaster: the task store, the derived view and the statistics

    A shallow embedding of [src/App.tsx]: the [Task] record, the handlers
    [addTask], [updateTask], [toggleTask], [deleteTask], the derived list
    [filteredTasks], the counters [stats] and the date helper [isOverdue],
    followed by the properties the specification states about them.

    JavaScript values are modelled as follows.
    - A string is a [string] whose characters are read as UTF-16 code units
      in the range 0..255.
    - An integral number is a [Z]; a number that may be [NaN] is an
      [option Z], with [None] for [NaN].
    - A [Date] object is its time value: milliseconds since the epoch, or
      [NaN] for an invalid date, hence an [option Z].
    - React state is passed explicitly: a handler is a function on [State],
      and [setTasks (prev => ...)] applies its argument to the stored list.
    - The clock reading of [Date.now ()] and [new Date ()] is an argument
      [now] of the function that reads it. *)

From Stdlib Require Import ZArith List String Ascii Bool Lia.
From Stdlib Require Import Permutation Sorted DecimalString DecimalZ.
Import ListNotations.

Local Open Scope string_scope.
Local Open Scope Z_scope.

(** ** Strings *)

Module JsString.

Definition code (c : ascii) : Z := Z.of_N (N_of_ascii c).

(** The code units of [WhiteSpace] and [LineTerminator] below 256: TAB,
    LF, VT, FF, CR, SP and NBSP. *)
Definition isWhiteSpace (c : ascii) : bool :=
  let n := code c in
  ((9 <=? n) && (n <=? 13)) || (n =? 32) || (n =? 160).

Definition isEmpty (s : string) : bool :=
  match s with EmptyString => true | String _ _ => false end.

Fixpoint trimStart (s : string) : string :=
  match s with
  | EmptyString => EmptyString
  | String c s' => if isWhiteSpace c then trimStart s' else s
  end.

Fixpoint trimEnd (s : string) : string :=
  match s with
  | EmptyString => EmptyString
  | String c s' =>
      let r := trimEnd s' in
      if isWhiteSpace c && isEmpty r then EmptyString else String c r
  end.

(** [String.prototype.trim]. *)
Definition trim (s : string) : string := trimEnd (trimStart s).

(** [String.prototype.toLowerCase] on code units below 256: A..Z and the
    capital letters of the Latin-1 supplement (all of C0..DE but the
    multiplication sign D7) move up by 32. *)
Definition lowerChar (c : ascii) : ascii :=
  let n := code c in
  if ((65 <=? n) && (n <=? 90))
     || ((192 <=? n) && (n <=? 222) && negb (n =? 215))
  then ascii_of_N (Z.to_N (n + 32)) else c.

Fixpoint toLowerCase (s : string) : string :=
  match s with
  | EmptyString => EmptyString
  | String c s' => String (lowerChar c) (toLowerCase s')
  end.

Fixpoint startsWith (p s : string) : bool :=
  match p, s with
  | EmptyString, _ => true
  | String _ _, EmptyString => false
  | String a p', String b s' => Ascii.eqb a b && startsWith p' s'
  end.

(** [String.prototype.includes]: [p] occurs in [s] as a substring. *)
Fixpoint includes (s p : string) : bool :=
  startsWith p s
  || match s with
     | EmptyString => false
     | String _ s' => includes s' p
     end.

Definition allWhiteSpace (s : string) : Prop :=
  Forall (fun c => isWhiteSpace c = true) (list_ascii_of_string s).

(** No white space at the front, at the back. *)
Definition startsClean (s : string) : Prop :=
  match s with
  | EmptyString => True
  | String c _ => isWhiteSpace c = false
  end.

Fixpoint endsClean (s : string) : Prop :=
  match s with
  | EmptyString => True
  | String c EmptyString => isWhiteSpace c = false
  | String _ s' => endsClean s'
  end.

End JsString.

(** ** Numbers *)

(** [Number.prototype.toString] on an integer: its decimal numeral, with
    a leading minus sign below zero. *)
Definition Number_toString (z : Z) : string :=
  NilZero.string_of_int (Z.to_int z).

(** A number that may be [NaN]. *)
Definition Number := option Z.

(** The subtraction [x - y] of two numbers. *)
Definition Number_sub (x y : Number) : Number :=
  match x, y with
  | Some a, Some b => Some (a - b)
  | _, _ => None
  end.

(** ** Dates *)

Module JsDate.

Definition msPerDay : Z := 86400000.

(** [Day(t)] and [TimeWithinDay(t)]; [/] and [mod] on [Z] round down. *)
Definition Day (t : Z) : Z := t / msPerDay.
Definition TimeWithinDay (t : Z) : Z := t mod msPerDay.

(** [WeekDay(t)], 0 for Sunday; the epoch was a Thursday. *)
Definition WeekDay (t : Z) : Z := (Day t + 4) mod 7.

Record Civil := { year : Z; month : Z; day : Z }.

(** Year, month (1..12) and day of the month of a day number in the
    proleptic Gregorian calendar, by 400-year eras that start on
    1 March. *)
Definition civilFromDays (n : Z) : Civil :=
  let z := n + 719468 in
  let era := z / 146097 in
  let doe := z - era * 146097 in
  let yoe := (doe - doe / 1460 + doe / 36524 - doe / 146096) / 365 in
  let doy := doe - (365 * yoe + yoe / 4 - yoe / 100) in
  let mp := (5 * doy + 2) / 153 in
  let m := if mp <? 10 then mp + 3 else mp - 9 in
  {| year := (yoe + era * 400) + (if m <=? 2 then 1 else 0);
     month := m;
     day := doy - (153 * mp + 2) / 5 + 1 |}.

(** The day number of a calendar date. *)
Definition daysFromCivil (y m d : Z) : Z :=
  let y' := if m <=? 2 then y - 1 else y in
  let era := y' / 400 in
  let yoe := y' - era * 400 in
  let mp := if 2 <? m then m - 3 else m + 9 in
  let doy := (153 * mp + 2) / 5 + d - 1 in
  let doe := yoe * 365 + yoe / 4 - yoe / 100 + doy in
  era * 146097 + doe - 719468.

Definition isLeapYear (y : Z) : bool :=
  ((y mod 4 =? 0) && negb (y mod 100 =? 0)) || (y mod 400 =? 0).

Definition daysInMonth (y m : Z) : Z :=
  if m =? 2 then (if isLeapYear y then 29 else 28)
  else if (m =? 4) || (m =? 6) || (m =? 9) || (m =? 11) then 30
  else 31.

(** *** Rendering *)

Definition digitChar (d : Z) : ascii := ascii_of_N (Z.to_N (48 + d mod 10)).

(** The [w] low decimal digits of [n], zero padded. *)
Fixpoint digits (w : nat) (n : Z) : string :=
  match w with
  | O => EmptyString
  | S w' => digits w' (n / 10) ++ String (digitChar n) EmptyString
  end.

Definition numDigits (n : Z) : nat := String.length (Number_toString n).

Definition weekDayName (d : Z) : string :=
  nth (Z.to_nat d) ["Sun"; "Mon"; "Tue"; "Wed"; "Thu"; "Fri"; "Sat"] "".

Definition monthName (m : Z) : string :=
  nth (Z.to_nat (m - 1))
      ["Jan"; "Feb"; "Mar"; "Apr"; "May"; "Jun";
       "Jul"; "Aug"; "Sep"; "Oct"; "Nov"; "Dec"] "".

(** [Date.prototype.toISOString] of a valid time value, in UTC; years
    outside 0..9999 are written with a sign and six digits. *)
Definition toISOString (t : Z) : string :=
  let c := civilFromDays (Day t) in
  let ms := TimeWithinDay t in
  let y := year c in
  (if (0 <=? y) && (y <=? 9999) then digits 4 y
   else (if y <? 0 then "-" else "+") ++ digits 6 (Z.abs y))
  ++ "-" ++ digits 2 (month c) ++ "-" ++ digits 2 (day c)
  ++ "T" ++ digits 2 (ms / 3600000)
  ++ ":" ++ digits 2 (ms / 60000 mod 60)
  ++ ":" ++ digits 2 (ms / 1000 mod 60)
  ++ "." ++ digits 3 (ms mod 1000) ++ "Z".

(** The date string of a local time value: weekday, month, day of the
    month on two digits and year on at least four. *)
Definition dateString (local : Z) : string :=
  let c := civilFromDays (Day local) in
  let y := year c in
  weekDayName (WeekDay local) ++ " " ++ monthName (month c) ++ " "
  ++ digits 2 (day c) ++ " "
  ++ (if y <? 0 then "-" else "") ++ digits (Nat.max 4 (numDigits (Z.abs y))) (Z.abs y).

(** *** Reading the ISO format *)

Definition digitValue (c : ascii) : option Z :=
  let n := JsString.code c in
  if (48 <=? n) && (n <=? 57) then Some (n - 48) else None.

(** Reads exactly [w] decimal digits from the front of [s]. *)
Fixpoint readDigits (w : nat) (acc : Z) (s : string) : option (Z * string) :=
  match w with
  | O => Some (acc, s)
  | S w' =>
      match s with
      | EmptyString => None
      | String c s' =>
          match digitValue c with
          | Some d => readDigits w' (10 * acc + d) s'
          | None => None
          end
      end
  end.

Definition expect (c : ascii) (s : string) : option string :=
  match s with
  | String c' s' => if Ascii.eqb c c' then Some s' else None
  | EmptyString => None
  end.

Definition bind {A B} (x : option A) (f : A -> option B) : option B :=
  match x with Some a => f a | None => None end.

Notation "'let?' p := e 'in' k" := (bind e (fun p => k))
  (at level 10, p pattern, e at level 200, k at level 200).

(** The time of day [THH:mm:ss.sssZ] in milliseconds. *)
Definition readTime (s : string) : option Z :=
  let? s := expect "T" s in
  let? (h, s) := readDigits 2 0 s in
  let? s := expect ":" s in
  let? (mi, s) := readDigits 2 0 s in
  let? s := expect ":" s in
  let? (sec, s) := readDigits 2 0 s in
  let? s := expect "." s in
  let? (ms, s) := readDigits 3 0 s in
  let? s := expect "Z" s in
  if JsString.isEmpty s && (h <? 24) && (mi <? 60) && (sec <? 60)
  then Some (((h * 60 + mi) * 60 + sec) * 1000 + ms) else None.

(** The two ISO forms this application writes: the date-only form
    [YYYY-MM-DD] of a date input, read as midnight UTC, and the form
    [YYYY-MM-DDTHH:mm:ss.sssZ] of [toISOString]. Any other string is
    not a date. *)
Definition parseISO (s : string) : option Z :=
  let? (y, s) := readDigits 4 0 s in
  let? s := expect "-" s in
  let? (m, s) := readDigits 2 0 s in
  let? s := expect "-" s in
  let? (d, s) := readDigits 2 0 s in
  if (1 <=? m) && (m <=? 12) && (1 <=? d) && (d <=? daysInMonth y m) then
    let midnight := daysFromCivil y m d * msPerDay in
    if JsString.isEmpty s then Some midnight
    else let? ms := readTime s in Some (midnight + ms)
  else None.

End JsDate.

(** ** The host

    What ECMAScript leaves to the implementation or to the machine the page
    runs on. [Date_parse] is fixed by the language on the ISO formats only;
    [LocalTZA t] is the offset of local time from UTC, in milliseconds, at
    the time value [t]; [localeCompare] is the collation of the locale. *)
Class Host := {
  Date_parse : string -> Number;
  LocalTZA : Z -> Z;
  localeCompare : string -> string -> Z
}.

(** A [Date]: [new Date (s)] is [Date_parse s], [new Date ()] is
    [Some now]. *)
Definition Date := Number.

(** [a < b] on two dates compares their time values; a comparison with
    [NaN] is false. *)
Definition Date_lt (a b : Date) : bool :=
  match a, b with
  | Some x, Some y => x <? y
  | _, _ => false
  end.

(** [Date.prototype.toDateString], in local time. *)
Definition toDateString `{Host} (d : Date) : string :=
  match d with
  | Some t => JsDate.dateString (t + LocalTZA t)
  | None => "Invalid Date"
  end.

(** ** The data model *)

Inductive Priority := low | medium | high.

Record Task := {
  id : string;
  title : string;
  description : string;
  completed : bool;
  priority : Priority;
  category : string;
  dueDate : string;
  createdAt : string;
  completedAt : option string
}.

Inductive FilterType := all | active | completedOnly.
Inductive SortType := created | byPriority | byDueDate | alphabetical.

Definition CATEGORIES : list string :=
  ["Personal"; "Work"; "Shopping"; "Health"; "Learning"; "Finance";
   "Travel"; "Other"].

Record FormData := {
  fTitle : string;
  fDescription : string;
  fPriority : Priority;
  fCategory : string;
  fDueDate : string
}.

(** The state variables of [App]. *)
Record State := {
  tasks : list Task;
  filter : FilterType;
  sortBy : SortType;
  searchTerm : string;
  selectedCategory : string;
  showAddForm : bool;
  editingTask : option Task;
  showFilters : bool;
  formData : FormData
}.

Definition emptyForm : FormData :=
  {| fTitle := ""; fDescription := ""; fPriority := medium;
     fCategory := "Personal"; fDueDate := "" |}.

Definition initialState : State :=
  {| tasks := []; filter := all; sortBy := created; searchTerm := "";
     selectedCategory := ""; showAddForm := false; editingTask := None;
     showFilters := false; formData := emptyForm |}.

Definition setTasks (f : list Task -> list Task) (s : State) : State :=
  {| tasks := f (tasks s); filter := filter s; sortBy := sortBy s;
     searchTerm := searchTerm s; selectedCategory := selectedCategory s;
     showAddForm := showAddForm s; editingTask := editingTask s;
     showFilters := showFilters s; formData := formData s |}.

Definition setFormData (d : FormData) (s : State) : State :=
  {| tasks := tasks s; filter := filter s; sortBy := sortBy s;
     searchTerm := searchTerm s; selectedCategory := selectedCategory s;
     showAddForm := showAddForm s; editingTask := editingTask s;
     showFilters := showFilters s; formData := d |}.

Definition setShowAddForm (b : bool) (s : State) : State :=
  {| tasks := tasks s; filter := filter s; sortBy := sortBy s;
     searchTerm := searchTerm s; selectedCategory := selectedCategory s;
     showAddForm := b; editingTask := editingTask s;
     showFilters := showFilters s; formData := formData s |}.

Definition setEditingTask (e : option Task) (s : State) : State :=
  {| tasks := tasks s; filter := filter s; sortBy := sortBy s;
     searchTerm := searchTerm s; selectedCategory := selectedCategory s;
     showAddForm := showAddForm s; editingTask := e;
     showFilters := showFilters s; formData := formData s |}.

(** ** The handlers *)

Definition resetForm (s : State) : State := setFormData emptyForm s.

(** The object [newTask] of [addTask]; its two readings of the clock both
    give [now]. *)
Definition newTask (now : Z) (d : FormData) : Task :=
  {| id := Number_toString now;
     title := JsString.trim (fTitle d);
     description := JsString.trim (fDescription d);
     completed := false;
     priority := fPriority d;
     category := fCategory d;
     dueDate := fDueDate d;
     createdAt := JsDate.toISOString now;
     completedAt := None |}.

(** [addTask], run when the clock reads [now]. *)
Definition addTask (now : Z) (s : State) : State :=
  if JsString.isEmpty (JsString.trim (fTitle (formData s))) then s
  else
    setShowAddForm false
      (resetForm
         (setTasks (fun prev => newTask now (formData s) :: prev) s)).

(** The object [{...task, title: ..., dueDate: ...}] of [updateTask]. *)
Definition withForm (d : FormData) (t : Task) : Task :=
  {| id := id t;
     title := JsString.trim (fTitle d);
     description := JsString.trim (fDescription d);
     completed := completed t;
     priority := fPriority d;
     category := fCategory d;
     dueDate := fDueDate d;
     createdAt := createdAt t;
     completedAt := completedAt t |}.

Definition updateTask (s : State) : State :=
  match editingTask s with
  | None => s
  | Some e =>
      if JsString.isEmpty (JsString.trim (fTitle (formData s))) then s
      else
        setEditingTask None
          (resetForm
             (setTasks
                (map (fun task =>
                        if String.eqb (id task) (id e)
                        then withForm (formData s) task else task))
                s))
  end.

(** The object [{...task, completed: ..., completedAt: ...}] of
    [toggleTask]. *)
Definition toggled (now : Z) (t : Task) : Task :=
  {| id := id t;
     title := title t;
     description := description t;
     completed := negb (completed t);
     priority := priority t;
     category := category t;
     dueDate := dueDate t;
     createdAt := createdAt t;
     completedAt :=
       if negb (completed t) then Some (JsDate.toISOString now) else None |}.

(** [toggleTask], run when the clock reads [now]. *)
Definition toggleTask (now : Z) (i : string) (s : State) : State :=
  setTasks
    (map (fun task => if String.eqb (id task) i then toggled now task else task))
    s.

Definition deleteTask (i : string) (s : State) : State :=
  setTasks (List.filter (fun task => negb (String.eqb (id task) i))) s.

Definition startEdit (t : Task) (s : State) : State :=
  setShowAddForm true
    (setFormData
       {| fTitle := title t; fDescription := description t;
          fPriority := priority t; fCategory := category t;
          fDueDate := dueDate t |}
       (setEditingTask (Some t) s)).

Definition cancelForm (s : State) : State :=
  setEditingTask None (setShowAddForm false (resetForm s)).

(** How an invocation of a handler completes. The handlers contain no
    [throw] and call nothing that throws, so an invocation always completes
    normally, with the next state; [Throw] is the completion a failing
    operation would have. *)
Inductive ErrorKind := ValidationError | NotFoundError.

Inductive Completion :=
| Normal (s : State)
| Throw (e : ErrorKind).

Definition call (handler : State -> State) (s : State) : Completion :=
  Normal (handler s).

(** What the user can do to the store, and a session as a list of it. *)
Inductive Action :=
| SetFormData (d : FormData)
| AddTask (now : Z)
| StartEdit (t : Task)
| UpdateTask
| ToggleTask (now : Z) (i : string)
| DeleteTask (i : string)
| CancelForm.

Definition step (s : State) (a : Action) : State :=
  match a with
  | SetFormData d => setFormData d s
  | AddTask now => addTask now s
  | StartEdit t => startEdit t s
  | UpdateTask => updateTask s
  | ToggleTask now i => toggleTask now i s
  | DeleteTask i => deleteTask i s
  | CancelForm => cancelForm s
  end.

Definition run (acts : list Action) (s : State) : State :=
  fold_left step acts s.

(** The clock readings at which a session runs [addTask]. *)
Fixpoint addTimes (acts : list Action) : list Z :=
  match acts with
  | [] => []
  | AddTask now :: acts' => now :: addTimes acts'
  | _ :: acts' => addTimes acts'
  end.

(** ** Sorting

    [Array.prototype.sort (comparefn)] is a stable sort; a [NaN] returned by
    [comparefn] counts as 0. The order it produces is fixed by the language
    when [comparefn] is a consistent comparator, and it is then the order of
    this insertion sort, which moves an element to the right only past
    elements that compare strictly below it. *)
Section Sort.

Context {A : Type} (comparefn : A -> A -> Number).

Definition sortCompare (x y : A) : Z :=
  match comparefn x y with
  | Some v => v
  | None => 0
  end.

Fixpoint insert (x : A) (l : list A) : list A :=
  match l with
  | [] => [x]
  | y :: l' => if 0 <? sortCompare x y then y :: insert x l' else x :: l
  end.

Definition sort (l : list A) : list A := fold_right insert [] l.

End Sort.

(** ** The derived view *)

Definition priorityOrder (p : Priority) : Z :=
  match p with
  | high => 3
  | medium => 2
  | low => 1
  end.

(** The comparator passed to [sort]. *)
Definition compareTasks `{Host} (by_ : SortType) (a b : Task) : Number :=
  match by_ with
  | byPriority => Some (priorityOrder (priority b) - priorityOrder (priority a))
  | byDueDate =>
      if JsString.isEmpty (dueDate a) && JsString.isEmpty (dueDate b)
      then Some 0
      else if JsString.isEmpty (dueDate a) then Some 1
      else if JsString.isEmpty (dueDate b) then Some (-1)
      else Number_sub (Date_parse (dueDate a)) (Date_parse (dueDate b))
  | alphabetical => Some (localeCompare (title a) (title b))
  | created => Number_sub (Date_parse (createdAt b)) (Date_parse (createdAt a))
  end.

Definition sortTasks `{Host} (by_ : SortType) (l : list Task) : list Task :=
  sort (compareTasks by_) l.

(** The predicate passed to [filter]. *)
Definition visible (s : State) (task : Task) : bool :=
  match filter s, completed task with
  | active, true => false
  | completedOnly, false => false
  | _, _ =>
      if negb (JsString.isEmpty (searchTerm s))
         && negb (JsString.includes (JsString.toLowerCase (title task))
                                    (JsString.toLowerCase (searchTerm s)))
         && negb (JsString.includes (JsString.toLowerCase (description task))
                                    (JsString.toLowerCase (searchTerm s)))
      then false
      else if negb (JsString.isEmpty (selectedCategory s))
              && negb (String.eqb (category task) (selectedCategory s))
      then false
      else true
  end.

Definition filteredTasks `{Host} (s : State) : list Task :=
  sortTasks (sortBy s) (List.filter (visible s) (tasks s)).

(** ** Statistics and the overdue mark *)

Module Stats.
Record t := { total : nat; completed : nat; active : nat; overdue : nat }.
End Stats.

(** The predicate of the [overdue] counter. *)
Definition countedOverdue `{Host} (now : Z) (t : Task) : bool :=
  negb (completed t)
  && negb (JsString.isEmpty (dueDate t))
  && Date_lt (Date_parse (dueDate t)) (Some now).

(** [stats], computed when the clock reads [now]. *)
Definition stats `{Host} (now : Z) (s : State) : Stats.t :=
  {| Stats.total := List.length (tasks s);
     Stats.completed := List.length (List.filter completed (tasks s));
     Stats.active := List.length (List.filter (fun t => negb (completed t)) (tasks s));
     Stats.overdue := List.length (List.filter (countedOverdue now) (tasks s)) |}.

(** [isOverdue]; its readings of the clock all give [now]. *)
Definition isOverdue `{Host} (now : Z) (due : string) : bool :=
  if JsString.isEmpty due then false
  else Date_lt (Date_parse due) (Some now)
       && negb (String.eqb (toDateString (Date_parse due))
                           (toDateString (Some now))).

(** The condition [isOverdue (task.dueDate) && !task.completed] under which
    a task of the list is marked overdue. *)
Definition markedOverdue `{Host} (now : Z) (task : Task) : bool :=
  isOverdue now (dueDate task) && negb (completed task).

(** ** Vocabulary of the statements *)

Definition hasDueDate (t : Task) : bool := negb (JsString.isEmpty (dueDate t)).

Definition noDueDate (t : Task) : bool := JsString.isEmpty (dueDate t).

(** The due date of a task is absent or a date the host can read, as the
    date input of the form produces it. *)
Definition validDueDate `{Host} (t : Task) : bool :=
  JsString.isEmpty (dueDate t)
  || match Date_parse (dueDate t) with Some _ => true | None => false end.

(** [dueAt k t]: [t] is due at the time value [k]. *)
Definition dueAt `{Host} (k : Z) (t : Task) : bool :=
  hasDueDate t
  && match Date_parse (dueDate t) with Some x => x =? k | None => false end.

(** [a] may stand before [b] in the order by due date: [b] has no due date,
    or both have one and that of [a] is not the later. *)
Definition dueBefore `{Host} (a b : Task) : Prop :=
  if noDueDate b then True
  else if noDueDate a then False
  else match Date_parse (dueDate a), Date_parse (dueDate b) with
       | Some x, Some y => x <= y
       | _, _ => False
       end.

(** [a] may stand before [b] in the order by priority. *)
Definition priorityBefore (a b : Task) : Prop :=
  priorityOrder (priority b) <= priorityOrder (priority a).

Definition hasRank (k : Z) (t : Task) : bool :=
  priorityOrder (priority t) =? k.


Definition ids (s : State) : list string := map id (tasks s).

(** The clock reading of noon UTC on 10 June 2024. *)
Definition noon_2024_06_10 : Z := 1718020800000.

(** ** Hosts to compute with *)

Definition ordinalCompare (a b : string) : Z :=
  match String.compare a b with
  | Lt => -1
  | Eq => 0
  | Gt => 1
  end.

(** A host that reads the ISO formats only, keeps local time at a constant
    [offset] from UTC and collates by code unit. *)
Definition fixedOffsetHost (offset : Z) : Host :=
  {| Date_parse := JsDate.parseISO;
     LocalTZA := fun _ => offset;
     localeCompare := ordinalCompare |}.

Definition utcHost : Host := fixedOffsetHost 0.

(** Five hours behind UTC. *)
Definition westHost : Host := fixedOffsetHost (-18000000).

(** Five and a half hours ahead of UTC. *)
Definition eastHost : Host := fixedOffsetHost 19800000.

(** A task with identifier and title [i], created at the epoch, for the
    examples. *)
Definition sampleTask (i : string) (p : Priority) (due : string) (done : bool) : Task :=
  {| id := i; title := i; description := ""; completed := done;
     priority := p; category := "Personal"; dueDate := due;
     createdAt := JsDate.toISOString 0;
     completedAt := if done then Some (JsDate.toISOString 0) else None |}.

Definition withTasks (l : list Task) : State := setTasks (fun _ => l) initialState.

(** A form with the given title and description. *)
Definition draft (t d : string) : FormData :=
  {| fTitle := t; fDescription := d; fPriority := medium;
     fCategory := "Personal"; fDueDate := "" |}.

(** An edit of the only task, with a blank title in the form. *)
Definition blankDraft : State :=
  setEditingTask (Some (sampleTask "t1" low "" false))
    (setFormData (draft "   " "note")
       (withTasks [sampleTask "t1" low "" false])).

(** An edit of a task that is no longer in the store. *)
Definition staleEdit : State :=
  setEditingTask (Some (sampleTask "t9" low "" false))
    (setFormData (draft "Buy milk" "")
       (withTasks [sampleTask "t1" low "" false])).

(** An edit of the second of two tasks. *)
Definition editing : State :=
  setEditingTask (Some (sampleTask "t2" high "" true))
    (setFormData
       {| fTitle := " Write report "; fDescription := "  for Monday ";
          fPriority := low; fCategory := "Work"; fDueDate := "2024-06-10" |}
       (withTasks [sampleTask "t1" low "" false;
                   sampleTask "t2" high "" true])).

(** ** The form, the list pane and the date label *)

(** The handler of the save button: [editingTask ? updateTask : addTask]. *)
Definition submit (now : Z) (s : State) : State :=
  match editingTask s with
  | Some _ => updateTask s
  | None => addTask now s
  end.

(** What the list shows: an invitation to add a first task when the store
    is empty, a hint to relax the filters when nothing passes them, or the
    view. *)
Inductive ListPane :=
| GetStarted
| AdjustFilters
| Listing (view : list Task).

Definition listPane `{Host} (s : State) : ListPane :=
  match filteredTasks s with
  | [] => match tasks s with [] => GetStarted | _ :: _ => AdjustFilters end
  | view => Listing view
  end.

(** What the host adds for [formatDate]: [UTC t] is the time value of the
    local time [t], and [toLocaleDateString] the date in the format of the
    locale. *)
Class Locale := {
  UTC : Z -> Z;
  toLocaleDateString : Date -> string
}.

Definition TimeClip (t : Z) : Date :=
  if Z.abs t <=? 8640000000000000 then Some t else None.

(** [d.setDate (d.getDate () + 1)] on the date of time value [t]: the same
    local time of day on the next day of the local calendar. *)
Definition nextLocalDay `{Host} `{Locale} (t : Z) : Date :=
  let local := t + LocalTZA t in
  let c := JsDate.civilFromDays (JsDate.Day local) in
  TimeClip
    (UTC (JsDate.daysFromCivil (JsDate.year c) (JsDate.month c)
                               (JsDate.day c + 1) * JsDate.msPerDay
          + JsDate.TimeWithinDay local)).

(** [formatDate]; its reading of the clock gives [now]. *)
Definition formatDate `{Host} `{Locale} (now : Z) (dateString : string) : string :=
  if JsString.isEmpty dateString then ""
  else
    let date := Date_parse dateString in
    let today := Some now in
    let tomorrow := nextLocalDay now in
    if String.eqb (toDateString date) (toDateString today) then "Today"
    else if String.eqb (toDateString date) (toDateString tomorrow) then "Tomorrow"
    else toLocaleDateString date.

(** A locale for hosts at a constant [offset] from UTC, writing dates as
    [toISOString] does. *)
Definition fixedOffsetLocale (offset : Z) : Locale :=
  {| UTC := fun t => t - offset;
     toLocaleDateString :=
       fun d => match d with
                | Some t => JsDate.toISOString t
                | None => "Invalid Date"
                end |}.

(** ** Further vocabulary of the statements *)

(** [l1] is [l2] with some elements left out. *)
Inductive Subseq {A : Type} : list A -> list A -> Prop :=
| Subseq_nil : Subseq [] []
| Subseq_skip x l1 l2 : Subseq l1 l2 -> Subseq l1 (x :: l2)
| Subseq_keep x l1 l2 : Subseq l1 l2 -> Subseq (x :: l1) (x :: l2).

(** Trimming changes nothing. *)
Definition trimmed (s : string) : Prop := JsString.trim s = s.

(** The title is not empty, and title and description are trimmed. *)
Definition tidyText (t : Task) : Prop :=
  title t <> "" /\ trimmed (title t) /\ trimmed (description t).

(** The task was built by [addTask] when the clock read [now]. *)
Definition createdWhen (now : Z) (t : Task) : Prop :=
  id t = Number_toString now /\ createdAt t = JsDate.toISOString now.

(** [p] occurs in [s]. *)
Definition occursIn (p s : string) : Prop := exists a b, s = a ++ p ++ b.

(** The state with the search term replaced, as [setSearchTerm] leaves
    it. *)
Definition setSearchTerm (term : string) (s : State) : State :=
  {| tasks := tasks s; filter := filter s; sortBy := sortBy s;
     searchTerm := term; selectedCategory := selectedCategory s;
     showAddForm := showAddForm s; editingTask := editingTask s;
     showFilters := showFilters s; formData := formData s |}.

Definition setFilter (f : FilterType) (s : State) : State :=
  {| tasks := tasks s; filter := f; sortBy := sortBy s;
     searchTerm := searchTerm s; selectedCategory := selectedCategory s;
     showAddForm := showAddForm s; editingTask := editingTask s;
     showFilters := showFilters s; formData := formData s |}.

Definition setSortBy (k : SortType) (s : State) : State :=
  {| tasks := tasks s; filter := filter s; sortBy := k;
     searchTerm := searchTerm s; selectedCategory := selectedCategory s;
     showAddForm := showAddForm s; editingTask := editingTask s;
     showFilters := showFilters s; formData := formData s |}.

Definition setSelectedCategory (c : string) (s : State) : State :=
  {| tasks := tasks s; filter := filter s; sortBy := sortBy s;
     searchTerm := searchTerm s; selectedCategory := c;
     showAddForm := showAddForm s; editingTask := editingTask s;
     showFilters := showFilters s; formData := formData s |}.

(** The time at which a task was created, as the sort by creation date
    reads it. *)
Definition validCreatedAt `{Host} (t : Task) : bool :=
  match Date_parse (createdAt t) with Some _ => true | None => false end.

Definition createdAtTime `{Host} (k : Z) (t : Task) : bool :=
  match Date_parse (createdAt t) with Some x => x =? k | None => false end.

(** [a] may stand before [b] in the order by creation date: [a] is not the
    older. *)
Definition createdBefore `{Host} (a b : Task) : Prop :=
  match Date_parse (createdAt a), Date_parse (createdAt b) with
  | Some x, Some y => y <= x
  | _, _ => False
  end.

(** [a] may stand before [b] in the alphabetical order. *)
Definition titleBefore `{Host} (a b : Task) : Prop :=
  localeCompare (title a) (title b) <= 0.

Definition sameTitleClass `{Host} (x t : Task) : bool :=
  localeCompare (title x) (title t) =? 0.

Definition withFilter (f : FilterType) (term cat : string) (s : State) : State :=
  {| tasks := tasks s; filter := f; sortBy := sortBy s;
     searchTerm := term; selectedCategory := cat;
     showAddForm := showAddForm s; editingTask := editingTask s;
     showFilters := showFilters s; formData := formData s |}.

(** Two tasks of the store, for the examples of the view. *)
Definition milk : Task :=
  {| id := "1"; title := "Buy Milk"; description := ""; completed := false;
     priority := medium; category := "Shopping"; dueDate := "";
     createdAt := JsDate.toISOString 1; completedAt := None |}.

Definition report : Task :=
  {| id := "2"; title := "Write report"; description := "quarterly";
     completed := true; priority := high; category := "Work"; dueDate := "";
     createdAt := JsDate.toISOString 2;
     completedAt := Some (JsDate.toISOString 3) |}.


Example trim_ex : JsString.trim "  Buy milk  " = "Buy milk".
Proof. reflexivity. Qed.

Example toString_ex : Number_toString 1717977600000 = "1717977600000".
Proof. reflexivity. Qed.

Example parseISO_ex : JsDate.parseISO "2024-06-10" = Some 1717977600000.
Proof. reflexivity. Qed.

Example toISOString_ex :
  JsDate.toISOString 1718020805123 = "2024-06-10T12:00:05.123Z".
Proof. reflexivity. Qed.

Example dateString_ex : JsDate.dateString 1718020805123 = "Mon Jun 10 2024".
Proof. reflexivity. Qed.

Example parse_toISOString_ex :
  JsDate.parseISO (JsDate.toISOString (-1718020805123)) = Some (-1718020805123).
Proof. reflexivity. Qed.

Example filter_active_ex :
  map title (@filteredTasks utcHost (withFilter active "" "" (withTasks [milk; report])))
  = ["Buy Milk"].
Proof. reflexivity. Qed.

Example filter_category_ex :
  map title (@filteredTasks utcHost (withFilter all "" "Work" (withTasks [milk; report])))
  = ["Write report"].
Proof. reflexivity. Qed.

Example search_ex :
  map title (@filteredTasks utcHost (withFilter all "MILK" "" (withTasks [milk; report])))
  = ["Buy Milk"].
Proof. reflexivity. Qed.

Example created_order_ex :
  map title (@filteredTasks utcHost (withTasks [milk; report]))
  = ["Write report"; "Buy Milk"].
Proof. reflexivity. Qed.

Example stats_ex :
  @stats utcHost noon_2024_06_10
    (withTasks [sampleTask "t1" low "" false;
                sampleTask "t2" high "2024-06-09" false;
                sampleTask "t3" medium "2024-06-09" true;
                sampleTask "t4" high "2024-06-11" false;
                sampleTask "t5" low "" true])
  = {| Stats.total := 5; Stats.completed := 2; Stats.active := 3;
       Stats.overdue := 1 |}.
Proof. reflexivity. Qed.

(** * Properties *)

(** ** Strings and numbers *)

Section StringFacts.

Import JsString.

Lemma isEmpty_true_iff s : isEmpty s = true <-> s = "".
Proof. destruct s; simpl; split; congruence. Qed.

Lemma isEmpty_false_iff s : isEmpty s = false <-> s <> "".
Proof. destruct s; simpl; split; congruence. Qed.

Lemma allWhiteSpace_nil : allWhiteSpace "".
Proof. constructor. Qed.

Lemma allWhiteSpace_cons c s :
  allWhiteSpace (String c s) <-> isWhiteSpace c = true /\ allWhiteSpace s.
Proof.
  unfold allWhiteSpace; simpl; split.
  - intros H; inversion H; auto.
  - intros [H1 H2]; constructor; auto.
Qed.

Lemma trimStart_split s :
  exists l, s = l ++ trimStart s /\ allWhiteSpace l /\ startsClean (trimStart s).
Proof.
  induction s as [|c s IH]; simpl.
  - exists ""; repeat split; apply allWhiteSpace_nil.
  - destruct (isWhiteSpace c) eqn:Hc.
    + destruct IH as (l & Hs & Hl & Hclean).
      exists (String c l); simpl; repeat split; auto.
      * f_equal; exact Hs.
      * apply allWhiteSpace_cons; auto.
    + exists ""; simpl; repeat split; auto using allWhiteSpace_nil.
Qed.

Lemma trimEnd_split s :
  exists r, s = trimEnd s ++ r /\ allWhiteSpace r /\ endsClean (trimEnd s).
Proof.
  induction s as [|c s IH]; simpl.
  - exists ""; repeat split; apply allWhiteSpace_nil.
  - destruct IH as (r & Hs & Hr & Hclean).
    destruct (isWhiteSpace c) eqn:Hc; simpl.
    + destruct (trimEnd s) as [|c' u] eqn:Hu; simpl.
      * exists (String c r); simpl; repeat split; auto.
        -- f_equal; exact Hs.
        -- apply allWhiteSpace_cons; auto.
      * exists r; repeat split; auto. simpl; f_equal; exact Hs.
    + exists r; repeat split; auto.
      * f_equal; exact Hs.
      * destruct (trimEnd s); auto.
Qed.

Lemma trimEnd_startsClean s : startsClean s -> startsClean (trimEnd s).
Proof.
  destruct s as [|c s]; simpl; auto.
  intros Hc; rewrite Hc; simpl; exact Hc.
Qed.

(** [trim s] is [s] without a leading and a trailing run of white space,
    and has white space at neither end. *)
Lemma trim_spec s :
  exists l r,
    s = l ++ trim s ++ r /\ allWhiteSpace l /\ allWhiteSpace r
    /\ startsClean (trim s) /\ endsClean (trim s).
Proof.
  unfold trim.
  destruct (trimStart_split s) as (l & Hs & Hl & Hclean).
  destruct (trimEnd_split (trimStart s)) as (r & Hs' & Hr & Hclean').
  exists l, r; repeat split; auto.
  - rewrite <- Hs'; exact Hs.
  - apply trimEnd_startsClean; exact Hclean.
Qed.

Lemma trimStart_allWhiteSpace s : allWhiteSpace s -> trimStart s = "".
Proof.
  induction s as [|c s IH]; simpl; auto.
  intros H; apply allWhiteSpace_cons in H as [Hc Hs].
  rewrite Hc; auto.
Qed.

Lemma allWhiteSpace_app l r :
  allWhiteSpace l -> allWhiteSpace r -> allWhiteSpace (l ++ r).
Proof.
  induction l as [|c l IH]; simpl; auto.
  intros H Hr; apply allWhiteSpace_cons in H as [Hc Hl].
  apply allWhiteSpace_cons; auto.
Qed.

(** A string trims to the empty string exactly when it is empty or made
    of white space only. *)
Lemma trim_empty_iff s : trim s = "" <-> allWhiteSpace s.
Proof.
  split.
  - intros H.
    destruct (trim_spec s) as (l & r & Hs & Hl & Hr & _).
    rewrite H in Hs; simpl in Hs; rewrite Hs.
    apply allWhiteSpace_app; auto.
  - intros H; unfold trim; rewrite trimStart_allWhiteSpace; auto.
Qed.

End StringFacts.

Lemma to_int_not_nil z : Z.to_int z <> Decimal.Pos Decimal.Nil /\ Z.to_int z <> Decimal.Neg Decimal.Nil.
Proof.
  destruct z as [|p|p]; simpl; split; try discriminate;
    intros [= H]; exact (DecimalPos.Unsigned.to_uint_nonnil p H).
Qed.

(** Two integers with the same numeral are equal. *)
Lemma Number_toString_inj a b : Number_toString a = Number_toString b -> a = b.
Proof.
  unfold Number_toString; intros H.
  apply DecimalZ.to_int_inj.
  destruct (to_int_not_nil a) as [Ha1 Ha2], (to_int_not_nil b) as [Hb1 Hb2].
  pose proof (NilZero.isi _ Ha1 Ha2) as Ia.
  pose proof (NilZero.isi _ Hb1 Hb2) as Ib.
  rewrite H in Ia; congruence.
Qed.

(** ** The sort *)

Section SortFacts.

Context {A : Type} (comparefn : A -> A -> Number).

Local Abbreviation cmp := (sortCompare comparefn).
Local Abbreviation le := (fun x y => cmp x y <= 0).

Lemma insert_perm x l : Permutation (x :: l) (insert comparefn x l).
Proof.
  induction l as [|y l IH]; simpl; auto.
  destruct (0 <? cmp x y); auto.
  rewrite perm_swap; auto.
Qed.

Lemma sort_perm l : Permutation l (sort comparefn l).
Proof.
  induction l as [|x l IH]; simpl; auto.
  rewrite <- insert_perm; auto.
Qed.

Lemma insert_In x y l : In y (insert comparefn x l) <-> y = x \/ In y l.
Proof.
  split.
  - intros H; apply (Permutation_in _ (Permutation_sym (insert_perm x l))) in H.
    destruct H; auto.
  - intros H; apply (Permutation_in _ (insert_perm x l)).
    destruct H; [left | right]; auto.
Qed.

(** *** Stability: a class of elements none of which compares above
    another keeps its order. *)

Lemma filter_insert (p : A -> bool) x l :
  (forall y, In y l -> p x = true -> p y = true -> cmp x y <= 0) ->
  List.filter p (insert comparefn x l)
  = if p x then x :: List.filter p l else List.filter p l.
Proof.
  induction l as [|y l IH]; intros Hp; simpl.
  - reflexivity.
  - destruct (Z.ltb_spec 0 (cmp x y)) as [Hgt | Hle]; simpl.
    + rewrite IH by (intros z Hz; apply Hp; right; exact Hz).
      destruct (p x) eqn:Hx, (p y) eqn:Hy; auto.
      specialize (Hp y (or_introl eq_refl) eq_refl Hy); lia.
    + reflexivity.
Qed.

Lemma sort_stable (p : A -> bool) l :
  (forall x y, In x l -> In y l -> p x = true -> p y = true -> cmp x y <= 0) ->
  List.filter p (sort comparefn l) = List.filter p l.
Proof.
  induction l as [|x l IH]; intros Hp; simpl; auto.
  rewrite filter_insert.
  - rewrite IH; auto.
    intros a b Ha Hb; apply Hp; right; auto.
  - intros y Hy; apply Hp; [left; auto | right].
    apply (Permutation_in _ (Permutation_sym (sort_perm l))); exact Hy.
Qed.

Lemma insert_app_stop x l1 l2 :
  match l2 with [] => True | y :: _ => cmp x y <= 0 end ->
  insert comparefn x (l1 ++ l2)%list = (insert comparefn x l1 ++ l2)%list.
Proof.
  intros H; induction l1 as [|z l1 IH]; simpl.
  - destruct l2 as [|y l2]; simpl; auto.
    destruct (Z.ltb_spec 0 (cmp x y)); auto; lia.
  - destruct (0 <? cmp x z); simpl; auto.
    rewrite IH; auto.
Qed.

Lemma insert_app_pass x l1 l2 :
  Forall (fun y => 0 < cmp x y) l1 ->
  insert comparefn x (l1 ++ l2)%list = (l1 ++ insert comparefn x l2)%list.
Proof.
  induction 1 as [|y l1 Hy _ IH]; simpl; auto.
  destruct (Z.ltb_spec 0 (cmp x y)); [|lia].
  rewrite IH; auto.
Qed.

Lemma StronglySorted_weaken (R R' : A -> A -> Prop) (Q : A -> Prop) l :
  (forall x y, Q x -> Q y -> R x y -> R' x y) ->
  Forall Q l -> StronglySorted R l -> StronglySorted R' l.
Proof.
  intros HR HQ; induction 1 as [|x l Hs IH Hx]; constructor.
  - inversion HQ; auto.
  - inversion HQ as [|? ? Qx Ql]; subst.
    rewrite Forall_forall in Hx, Ql |- *; auto.
Qed.

(** *** Order: on elements where [comparefn] is consistent, the result is
    sorted. *)

Variable P : A -> Prop.
Hypothesis cmp_flip : forall x y, P x -> P y -> 0 < cmp x y -> cmp y x <= 0.
Hypothesis cmp_trans :
  forall x y z, P x -> P y -> P z -> cmp x y <= 0 -> cmp y z <= 0 -> cmp x z <= 0.

Lemma insert_sorted x l :
  P x -> Forall P l ->
  StronglySorted le l -> StronglySorted le (insert comparefn x l).
Proof.
  intros Px; induction l as [|y l IH]; intros HP Hs; simpl.
  - repeat constructor.
  - inversion HP as [|? ? Py HPl]; subst.
    inversion Hs as [|? ? Hsl Hy]; subst.
    destruct (Z.ltb_spec 0 (cmp x y)) as [Hgt | Hle].
    + constructor; auto.
      apply Forall_forall; intros z Hz.
      apply insert_In in Hz as [-> | Hz]; auto.
      rewrite Forall_forall in Hy; auto.
    + constructor; auto.
      constructor; auto.
      rewrite Forall_forall in Hy, HPl |- *.
      intros z Hz; apply (cmp_trans x y z); auto.
Qed.

Lemma sort_sorted l : Forall P l -> StronglySorted le (sort comparefn l).
Proof.
  induction l as [|x l IH]; intros HP; simpl.
  - constructor.
  - inversion HP; subst.
    apply insert_sorted; auto.
    apply Forall_forall; intros y Hy.
    apply (Permutation_in _ (Permutation_sym (sort_perm l))) in Hy.
    rewrite Forall_forall in H2; auto.
Qed.

(** *** Uniqueness: a sorted arrangement that keeps the order inside every
    class of elements comparing equal is the only one, so every stable
    sort returns the list [sort] returns. *)

Hypothesis cmp_refl : forall x, P x -> cmp x x = 0.
Hypothesis cmp_antisym :
  forall x y, P x -> P y -> cmp x y <= 0 -> cmp y x <= 0 -> cmp x y = 0.

Lemma stable_sorted_unique l1 l2 :
  Forall P l1 -> Forall P l2 ->
  StronglySorted le l1 -> StronglySorted le l2 ->
  (forall x, P x ->
     List.filter (fun y => cmp x y =? 0) l1 = List.filter (fun y => cmp x y =? 0) l2) ->
  l1 = l2.
Proof.
  revert l2; induction l1 as [|a l1 IH]; intros [|b l2] P1 P2 S1 S2 Hcls.
  - reflexivity.
  - inversion P2 as [|? ? Pb _]; subst.
    specialize (Hcls b Pb); simpl in Hcls.
    rewrite (cmp_refl b Pb) in Hcls; discriminate.
  - inversion P1 as [|? ? Pa _]; subst.
    specialize (Hcls a Pa); simpl in Hcls.
    rewrite (cmp_refl a Pa) in Hcls; discriminate.
  - inversion P1 as [|? ? Pa P1']; inversion P2 as [|? ? Pb P2']; subst.
    inversion S1 as [|? ? S1' Ha]; inversion S2 as [|? ? S2' Hb]; subst.
    assert (Hab : a = b).
    { pose proof (Hcls a Pa) as Ea; pose proof (Hcls b Pb) as Eb.
      simpl in Ea, Eb.
      rewrite (cmp_refl a Pa) in Ea; rewrite (cmp_refl b Pb) in Eb.
      simpl in Ea, Eb.
      destruct (Z.eqb_spec (cmp a b) 0) as [E1 | N1]; [congruence|].
      destruct (Z.eqb_spec (cmp b a) 0) as [E2 | N2]; [congruence|].
      assert (In a l2) as Ia.
      { apply (filter_In (fun y => cmp a y =? 0)).
        rewrite <- Ea; left; reflexivity. }
      assert (In b l1) as Ib.
      { apply (filter_In (fun y => cmp b y =? 0)).
        rewrite Eb; left; reflexivity. }
      rewrite Forall_forall in Ha, Hb.
      specialize (Ha b Ib); specialize (Hb a Ia).
      exfalso; apply N1; apply cmp_antisym; auto. }
    subst b; f_equal.
    apply IH; auto.
    intros x Px; specialize (Hcls x Px); simpl in Hcls.
    destruct (cmp x a =? 0); congruence.
Qed.

End SortFacts.

(** ** The view sorted by priority and by due date *)

Section ViewFacts.

Context {host : Host}.

Lemma cmp_priority a b :
  sortCompare (compareTasks byPriority) a b
  = priorityOrder (priority b) - priorityOrder (priority a).
Proof. reflexivity. Qed.

(** Order and stability of the sort by priority. *)
Lemma sort_by_priority_descending_stable_core (l : list Task) :
  Permutation l (sortTasks byPriority l)
  /\ StronglySorted priorityBefore (sortTasks byPriority l)
  /\ (forall k, List.filter (hasRank k) (sortTasks byPriority l)
               = List.filter (hasRank k) l).
Proof.
  unfold sortTasks; refine (conj _ (conj _ _)).
  - apply sort_perm.
  - apply (StronglySorted_weaken
             (fun x y => sortCompare (compareTasks byPriority) x y <= 0)
             priorityBefore (fun _ => True)).
    + intros x y _ _; rewrite cmp_priority; unfold priorityBefore; lia.
    + apply Forall_forall; auto.
    + apply (sort_sorted _ (fun _ => True)).
      * intros x y _ _; rewrite !cmp_priority; lia.
      * intros x y z _ _ _; rewrite !cmp_priority; lia.
      * apply Forall_forall; auto.
  - intros k; apply sort_stable.
    intros x y _ _ Hx Hy; rewrite cmp_priority.
    unfold hasRank in Hx, Hy; lia.
Qed.

(** C7. Sorted by priority, a list of tasks is rearranged so that ranks
    (high 3, medium 2, low 1) never increase from one task to any later one,
    and the tasks of each rank stand in the order they had in the input; the
    priorities low, high, medium, high give the second and the fourth task,
    then the third, then the first. *)
Theorem sort_by_priority_descending_stable (l : list Task) :
  Permutation l (sortTasks byPriority l)
  /\ StronglySorted priorityBefore (sortTasks byPriority l)
  /\ (forall k, List.filter (hasRank k) (sortTasks byPriority l)
               = List.filter (hasRank k) l)
  /\ map id (sortTasks byPriority
               [sampleTask "t1" low "" false; sampleTask "t2" high "" false;
                sampleTask "t3" medium "" false; sampleTask "t4" high "" false])
     = ["t2"; "t4"; "t3"; "t1"].
Proof.
  destruct (sort_by_priority_descending_stable_core l) as (Hp & Hs & Hst).
  refine (conj Hp (conj Hs (conj Hst _))).
  vm_compute; reflexivity.
Qed.

(** Whatever stable sort the engine runs, this is the list it returns: a
    rearrangement in the order of [compareTasks] that keeps the input order
    inside each class is the list [sortTasks] computes. *)
Lemma sort_by_priority_unique (l r : list Task) :
  StronglySorted priorityBefore r ->
  (forall k, List.filter (hasRank k) r = List.filter (hasRank k) l) ->
  r = sortTasks byPriority l.
Proof.
  intros Hs Hst.
  destruct (sort_by_priority_descending_stable_core l) as (_ & Hs' & Hst').
  apply (stable_sorted_unique (compareTasks byPriority) (fun _ => True)).
  - intros x _; rewrite cmp_priority; lia.
  - intros x y _ _; rewrite !cmp_priority; lia.
  - apply Forall_forall; auto.
  - apply Forall_forall; auto.
  - apply (StronglySorted_weaken priorityBefore _ (fun _ => True));
      [| apply Forall_forall; auto | exact Hs].
    intros x y _ _; rewrite cmp_priority; unfold priorityBefore; lia.
  - apply (StronglySorted_weaken priorityBefore _ (fun _ => True));
      [| apply Forall_forall; auto | exact Hs'].
    intros x y _ _; rewrite cmp_priority; unfold priorityBefore; lia.
  - intros x _.
    rewrite (filter_ext _ (hasRank (priorityOrder (priority x)))).
    + rewrite (filter_ext (fun y => sortCompare _ x y =? 0)
                          (hasRank (priorityOrder (priority x)))).
      * rewrite Hst, Hst'; reflexivity.
      * intros y; rewrite cmp_priority; unfold hasRank; lia.
    + intros y; rewrite cmp_priority; unfold hasRank; lia.
Qed.


Lemma cmp_dueDate_cases a b :
  sortCompare (compareTasks byDueDate) a b
  = if noDueDate a && noDueDate b then 0
    else if noDueDate a then 1
    else if noDueDate b then -1
    else match Date_parse (dueDate a), Date_parse (dueDate b) with
         | Some x, Some y => x - y
         | _, _ => 0
         end.
Proof.
  unfold sortCompare, compareTasks, noDueDate, Number_sub.
  destruct (JsString.isEmpty (dueDate a)), (JsString.isEmpty (dueDate b));
    simpl; auto.
  destruct (Date_parse (dueDate a)), (Date_parse (dueDate b)); auto.
Qed.

Ltac case_due t :=
  destruct (JsString.isEmpty (dueDate t)) eqn:?;
  destruct (Date_parse (dueDate t)) eqn:?.

Ltac due_unfold :=
  unfold validDueDate, dueBefore, dueAt, hasDueDate, noDueDate in *.

Ltac due_finish := simpl in *; try discriminate; try lia; auto.

(** The tasks without a due date follow the others, in input order. *)
Lemma sort_by_dueDate_split l :
  sortTasks byDueDate l
  = (sortTasks byDueDate (List.filter hasDueDate l) ++ List.filter noDueDate l)%list.
Proof.
  unfold sortTasks; induction l as [|x l IH]; [reflexivity|].
  cbn [List.filter sort fold_right]; fold (sort (compareTasks byDueDate) l).
  rewrite IH.
  assert (Hh : hasDueDate x = negb (noDueDate x)) by reflexivity.
  rewrite Hh; clear Hh.
  destruct (noDueDate x) eqn:Hx; cbn [negb sort fold_right].
  - rewrite insert_app_pass.
    + f_equal.
      destruct (List.filter noDueDate l) as [|y u] eqn:Hu; [reflexivity|].
      assert (noDueDate y = true) as Hy.
      { apply (proj1 (filter_In noDueDate y l)); rewrite Hu; left; auto. }
      cbn [insert]; rewrite cmp_dueDate_cases, Hx, Hy; reflexivity.
    + apply Forall_forall; intros y Hy.
      apply (Permutation_in _ (Permutation_sym (sort_perm _ _))) in Hy.
      apply filter_In in Hy as [_ Hy].
      rewrite cmp_dueDate_cases, Hx.
      unfold hasDueDate in Hy; fold (noDueDate y) in Hy.
      destruct (noDueDate y); simpl; try discriminate; lia.
  - apply insert_app_stop.
    destruct (List.filter noDueDate l) as [|y u] eqn:Hu; [exact I|].
    assert (noDueDate y = true) as Hy.
    { apply (proj1 (filter_In noDueDate y l)); rewrite Hu; left; auto. }
    rewrite cmp_dueDate_cases, Hx, Hy; simpl; lia.
Qed.

(** Order and stability of the sort by due date. *)
Lemma sort_by_dueDate_core (l : list Task) :
  Forall (fun t => validDueDate t = true) l ->
  StronglySorted dueBefore (sortTasks byDueDate l)
  /\ (forall k, List.filter (dueAt k) (sortTasks byDueDate l)
               = List.filter (dueAt k) l).
Proof.
  intros Hvalid; split.
  - apply (StronglySorted_weaken
             (fun x y => sortCompare (compareTasks byDueDate) x y <= 0)
             dueBefore (fun t => validDueDate t = true)).
    + intros x y Hx Hy; rewrite cmp_dueDate_cases;
        due_unfold; case_due x; case_due y; due_finish.
    + apply Forall_forall; intros t Ht.
      apply (Permutation_in _ (Permutation_sym (sort_perm _ _))) in Ht.
      rewrite Forall_forall in Hvalid; auto.
    + apply (sort_sorted _ (fun t => validDueDate t = true)); auto.
      * intros x y Hx Hy; rewrite !cmp_dueDate_cases;
          due_unfold; case_due x; case_due y; due_finish.
      * intros x y z Hx Hy Hz; rewrite !cmp_dueDate_cases;
          due_unfold; case_due x; case_due y; case_due z; due_finish.
  - intros k; apply sort_stable.
    intros x y _ _ Hx Hy; rewrite cmp_dueDate_cases;
      due_unfold; case_due x; case_due y; due_finish.
Qed.

(** C8, amended. Sorted by due date, a list of tasks whose due dates are
    each absent or a date the host can read is rearranged so that the tasks
    with a due date come first, by ascending date, and those without
    follow, in the order they had in the input; two tasks without a due
    date compare equal, and tasks due at the same time keep their input
    order too. *)
Theorem sort_by_dueDate_ascending_undated_last (l : list Task) :
  Forall (fun t => validDueDate t = true) l ->
  Permutation l (sortTasks byDueDate l)
  /\ StronglySorted dueBefore (sortTasks byDueDate l)
  /\ sortTasks byDueDate l
     = (sortTasks byDueDate (List.filter hasDueDate l)
        ++ List.filter noDueDate l)%list
  /\ (forall a b, noDueDate a = true -> noDueDate b = true ->
                  compareTasks byDueDate a b = Some 0)
  /\ (forall k, List.filter (dueAt k) (sortTasks byDueDate l)
               = List.filter (dueAt k) l).
Proof.
  intros Hvalid.
  destruct (sort_by_dueDate_core l Hvalid) as [Hs Hst].
  refine (conj _ (conj Hs (conj _ (conj _ Hst)))).
  - apply sort_perm.
  - apply sort_by_dueDate_split.
  - intros a b Ha Hb; unfold compareTasks, noDueDate in *; rewrite Ha, Hb; auto.
Qed.

Lemma filter_noDueDate_sorted l :
  List.filter noDueDate (sortTasks byDueDate l) = List.filter noDueDate l.
Proof.
  apply sort_stable.
  intros x y _ _ Hx Hy; rewrite cmp_dueDate_cases, Hx, Hy; simpl; lia.
Qed.

Lemma dueDate_class (x : Task) (L : list Task) :
  validDueDate x = true ->
  Forall (fun t => validDueDate t = true) L ->
  List.filter (fun y => sortCompare (compareTasks byDueDate) x y =? 0) L
  = if noDueDate x then List.filter noDueDate L
    else match Date_parse (dueDate x) with
         | Some k => List.filter (dueAt k) L
         | None => []
         end.
Proof.
  intros Hx HL; rewrite Forall_forall in HL.
  destruct (noDueDate x) eqn:Ex.
  - apply filter_ext_in; intros y Hy; specialize (HL y Hy).
    rewrite cmp_dueDate_cases, Ex.
    destruct (noDueDate y); reflexivity.
  - unfold validDueDate in Hx; fold (noDueDate x) in Hx; rewrite Ex in Hx.
    destruct (Date_parse (dueDate x)) as [k|] eqn:Ek; [|discriminate].
    apply filter_ext_in; intros y Hy; specialize (HL y Hy).
    rewrite cmp_dueDate_cases, Ex, Ek.
    due_unfold; case_due y; due_finish.
Qed.

(** The same for the sort by due date, on due dates that are absent or
    readable. *)
Lemma sort_by_dueDate_unique (l r : list Task) :
  Forall (fun t => validDueDate t = true) l ->
  Permutation l r ->
  StronglySorted dueBefore r ->
  List.filter noDueDate r = List.filter noDueDate l ->
  (forall k, List.filter (dueAt k) r = List.filter (dueAt k) l) ->
  r = sortTasks byDueDate l.
Proof.
  intros Hvalid Hperm Hs Hun Hst.
  destruct (sort_by_dueDate_core l Hvalid) as [Hs' Hst'].
  assert (Hr : Forall (fun t => validDueDate t = true) r).
  { rewrite Forall_forall in Hvalid |- *; intros t Ht.
    apply Hvalid, (Permutation_in _ (Permutation_sym Hperm)), Ht. }
  assert (Hr' : Forall (fun t => validDueDate t = true) (sortTasks byDueDate l)).
  { rewrite Forall_forall in Hvalid |- *; intros t Ht.
    apply Hvalid,
      (Permutation_in _ (Permutation_sym (sort_perm (compareTasks byDueDate) l))),
      Ht. }
  assert (Hle : forall x y, validDueDate x = true -> validDueDate y = true ->
                            dueBefore x y ->
                            sortCompare (compareTasks byDueDate) x y <= 0).
  { intros x y Hx Hy; rewrite cmp_dueDate_cases;
      due_unfold; case_due x; case_due y; due_finish. }
  apply (stable_sorted_unique (compareTasks byDueDate)
           (fun t => validDueDate t = true)); auto.
  - intros x Hx; rewrite cmp_dueDate_cases;
      due_unfold; case_due x; due_finish.
  - intros x y Hx Hy; rewrite !cmp_dueDate_cases;
      due_unfold; case_due x; case_due y; due_finish.
  - apply (StronglySorted_weaken dueBefore _ (fun t => validDueDate t = true));
      auto.
  - apply (StronglySorted_weaken dueBefore _ (fun t => validDueDate t = true));
      auto.
  - intros x Hx; rewrite !dueDate_class by auto.
    rewrite filter_noDueDate_sorted, Hun.
    destruct (noDueDate x); auto.
    destruct (Date_parse (dueDate x)); auto.
    rewrite Hst, Hst'; reflexivity.
Qed.

End ViewFacts.

(** C8 as stated fails: a due date that is not empty and that the host
    cannot read compares equal to every other due date, the comparator
    returning [NaN]. With such a task between them, a task due on
    2024-06-10 stays before a task due on 2024-06-09: the list comes out as
    it went in, and its tasks with a readable due date are not in ascending
    order. *)
Lemma sort_by_dueDate_unreadable_date_breaks_order :
  let l := [sampleTask "t1" low "2024-06-10" false;
            sampleTask "t2" low "x" false;
            sampleTask "t3" low "2024-06-09" false] in
  Forall (fun t => hasDueDate t = true) l
  /\ @compareTasks utcHost byDueDate (sampleTask "t1" low "2024-06-10" false)
                                     (sampleTask "t2" low "x" false) = None
  /\ @sortTasks utcHost byDueDate l = l
  /\ List.filter (@validDueDate utcHost) (@sortTasks utcHost byDueDate l)
     = [sampleTask "t1" low "2024-06-10" false;
        sampleTask "t3" low "2024-06-09" false]
  /\ ~ StronglySorted (@dueBefore utcHost)
                      (List.filter (@validDueDate utcHost)
                                   (@sortTasks utcHost byDueDate l))
  /\ ~ StronglySorted (@dueBefore utcHost) (@sortTasks utcHost byDueDate l).
Proof.
  refine (conj _ (conj _ (conj _ (conj _ (conj _ _))))); try reflexivity.
  - repeat constructor.
  - intros H; apply StronglySorted_inv in H as [_ H].
    inversion H as [|? ? Hd _]; vm_compute in Hd; exact (Hd eq_refl).
  - intros H; apply StronglySorted_inv in H as [_ H].
    inversion H as [|? ? _ H']; inversion H' as [|? ? Hd _].
    vm_compute in Hd; exact (Hd eq_refl).
Qed.

Lemma sort_by_dueDate_ascending_undated_last_witness :
  let l := [sampleTask "t1" low "" false;
            sampleTask "t2" high "2024-06-10" false;
            sampleTask "t3" medium "" true;
            sampleTask "t4" high "2024-06-09" false;
            sampleTask "t5" low "2024-06-10" false] in
  Forall (fun t => @validDueDate utcHost t = true) l
  /\ map id (@sortTasks utcHost byDueDate l) = ["t4"; "t2"; "t5"; "t1"; "t3"]
  /\ StronglySorted (@dueBefore utcHost) (@sortTasks utcHost byDueDate l).
Proof.
  intros l.
  assert (H : Forall (fun t => @validDueDate utcHost t = true) l).
  { repeat constructor. }
  split; [exact H | split; [reflexivity |]].
  exact (proj1 (proj2 (@sort_by_dueDate_ascending_undated_last utcHost l H))).
Defined.

(** ** The store *)

Section StoreFacts.

Lemma map_if_id (c : Task -> bool) (f : Task -> Task) l :
  (forall t, id (f t) = id t) ->
  map id (map (fun t => if c t then f t else t) l) = map id l.
Proof.
  intros Hf; induction l as [|t l IH]; simpl; auto.
  rewrite IH; destruct (c t); rewrite ?Hf; auto.
Qed.

Lemma map_if_absent (i : string) (f : Task -> Task) l :
  ~ In i (map id l) ->
  map (fun t => if String.eqb (id t) i then f t else t) l = l.
Proof.
  induction l as [|t l IH]; simpl; auto.
  intros H; destruct (String.eqb_spec (id t) i) as [E | N].
  - exfalso; apply H; left; exact E.
  - rewrite IH; auto.
Qed.

Lemma NoDup_map_filter {A B} (f : A -> B) (p : A -> bool) l :
  NoDup (map f l) -> NoDup (map f (List.filter p l)).
Proof.
  induction l as [|x l IH]; simpl; auto.
  intros H; inversion H as [|? ? Hx Hl]; subst.
  destruct (p x); simpl; auto.
  constructor; auto.
  intros Hin; apply Hx.
  apply in_map_iff in Hin as (y & Hy & Hin).
  apply filter_In in Hin as [Hin _].
  rewrite <- Hy; apply in_map; exact Hin.
Qed.

Lemma addTask_blank now s :
  JsString.trim (fTitle (formData s)) = "" -> addTask now s = s.
Proof. unfold addTask; intros ->; reflexivity. Qed.

Lemma addTask_tasks now s :
  JsString.trim (fTitle (formData s)) <> "" ->
  tasks (addTask now s) = newTask now (formData s) :: tasks s.
Proof.
  unfold addTask; intros H.
  apply isEmpty_false_iff in H; rewrite H; reflexivity.
Qed.

Lemma updateTask_blank s :
  JsString.trim (fTitle (formData s)) = "" -> updateTask s = s.
Proof.
  unfold updateTask; intros ->; destruct (editingTask s); reflexivity.
Qed.

Lemma updateTask_tasks s e :
  editingTask s = Some e ->
  JsString.trim (fTitle (formData s)) <> "" ->
  tasks (updateTask s)
  = map (fun task => if String.eqb (id task) (id e)
                     then withForm (formData s) task else task) (tasks s).
Proof.
  unfold updateTask; intros -> H.
  apply isEmpty_false_iff in H; rewrite H; reflexivity.
Qed.

(** Whatever the handler, the identifiers after a step are among those
    before it, but for the one [addTask] may add. *)
Lemma updateTask_ids s : ids (updateTask s) = ids s.
Proof.
  unfold ids, updateTask.
  destruct (editingTask s) as [e|]; auto.
  destruct (JsString.isEmpty _); auto.
  simpl; apply map_if_id; reflexivity.
Qed.

Lemma toggleTask_ids now i s : ids (toggleTask now i s) = ids s.
Proof. unfold ids; simpl; apply map_if_id; reflexivity. Qed.


Lemma run_ids_NoDup acts : forall s used,
  NoDup (ids s) ->
  incl (ids s) (map Number_toString used) ->
  NoDup (used ++ addTimes acts)%list ->
  NoDup (ids (run acts s)).
Proof.
  induction acts as [|a acts IH]; intros s used Hnd Hincl Hused; simpl; auto.
  destruct a as [d | now | t | | now i | i | ]; simpl in *;
    try (apply (IH _ used); auto; fail).
  - apply (IH _ (used ++ [now])%list).
    + unfold addTask; destruct (JsString.isEmpty _); auto.
      unfold ids; simpl; constructor; auto.
      intros Hin; apply Hincl in Hin.
      apply in_map_iff in Hin as (n & Hn & Hin).
      apply Number_toString_inj in Hn; subst n.
      apply NoDup_remove_2 in Hused; apply Hused.
      apply in_or_app; left; exact Hin.
    + rewrite map_app; unfold addTask; destruct (JsString.isEmpty _).
      * intros x Hx; apply in_or_app; left; auto.
      * unfold ids; simpl; intros x [<- | Hx]; apply in_or_app.
        -- right; left; reflexivity.
        -- left; auto.
    + rewrite <- app_assoc; exact Hused.
  - apply (IH _ used); auto; rewrite updateTask_ids; auto.
  - apply (IH _ used); auto; rewrite toggleTask_ids; auto.
  - apply (IH _ used); auto.
    + unfold ids; simpl; apply NoDup_map_filter; exact Hnd.
    + intros x Hx; apply Hincl.
      unfold ids in *; simpl in Hx.
      apply in_map_iff in Hx as (t & <- & Ht).
      apply filter_In in Ht as [Ht _]; apply in_map; exact Ht.
Qed.

End StoreFacts.

(** ** Identifiers *)

(** Two new tasks carry the same identifier exactly when the clock showed
    the same millisecond. *)
Lemma newTask_id_eq_iff now1 now2 d1 d2 :
  id (newTask now1 d1) = id (newTask now2 d2) <-> now1 = now2.
Proof.
  simpl; split; [apply Number_toString_inj | intros ->; reflexivity].
Qed.

(** C3 as stated fails: two tasks added while the clock shows the same
    millisecond carry the same identifier, and both are in the store. *)
Lemma addTask_same_instant_same_id :
  let s1 := addTask 1718020800000 (setFormData (draft "Buy milk" "") initialState) in
  let s2 := addTask 1718020800000 (setFormData (draft "Write report" "") s1) in
  tasks s2 = [newTask 1718020800000 (draft "Write report" "");
              newTask 1718020800000 (draft "Buy milk" "")]
  /\ ids s2 = ["1718020800000"; "1718020800000"]
  /\ ~ NoDup (ids s2).
Proof.
  refine (conj _ (conj _ _)); try reflexivity.
  intros H; inversion H as [|x l Hx _]; subst.
  apply Hx; left; reflexivity.
Qed.

(** C3, amended. In a session that starts from the empty store and never
    runs [addTask] twice at the same clock reading, no two tasks of the
    store ever carry the same identifier. *)
Theorem ids_unique_at_distinct_instants (acts : list Action) :
  NoDup (addTimes acts) -> NoDup (ids (run acts initialState)).
Proof.
  intros H; apply (run_ids_NoDup acts initialState []); simpl; auto.
  - constructor.
  - intros x [].
Qed.

Lemma ids_unique_at_distinct_instants_witness :
  let acts := [SetFormData (draft "Buy milk" ""); AddTask 1718020800000;
               SetFormData (draft "Write report" ""); AddTask 1718020800001;
               ToggleTask 1718020800002 "1718020800000";
               DeleteTask "1718020800001"] in
  NoDup (addTimes acts) /\ NoDup (ids (run acts initialState)).
Proof.
  intros acts.
  assert (H : NoDup (addTimes acts)).
  { repeat constructor; simpl; intuition discriminate. }
  split; [exact H | exact (ids_unique_at_distinct_instants acts H)].
Defined.

(** ** Completion time *)


(** ** Rejected drafts and unknown identifiers *)

(** C5 as stated fails: a form with a blank title is not answered by an
    error, both handlers return normally. *)
Lemma blank_title_raises_nothing :
  call (addTask 1718020800000) blankDraft = Normal blankDraft
  /\ call updateTask blankDraft = Normal blankDraft
  /\ call (addTask 1718020800000) blankDraft <> Throw ValidationError
  /\ call updateTask blankDraft <> Throw ValidationError.
Proof.
  refine (conj _ (conj _ (conj _ _))); try reflexivity; discriminate.
Qed.

(** C5, amended. With a title that is empty or white space only, [addTask]
    and [updateTask] return normally, raising nothing, and leave the whole
    state as it was, the tasks with it. *)
Theorem blank_title_changes_nothing (now : Z) (s : State) :
  JsString.allWhiteSpace (fTitle (formData s)) ->
  (call (addTask now) s = Normal s /\ call updateTask s = Normal s)
  /\ tasks (addTask now s) = tasks s
  /\ tasks (updateTask s) = tasks s.
Proof.
  intros H; apply trim_empty_iff in H.
  unfold call; rewrite (addTask_blank now s H), (updateTask_blank s H).
  repeat split.
Qed.

Lemma blank_title_changes_nothing_witness :
  JsString.allWhiteSpace (fTitle (formData blankDraft))
  /\ tasks (addTask 1718020800000 blankDraft) = tasks blankDraft
  /\ tasks (updateTask blankDraft) = tasks blankDraft.
Proof.
  assert (H : JsString.allWhiteSpace (fTitle (formData blankDraft))).
  { repeat constructor. }
  split; [exact H |].
  exact (proj2 (blank_title_changes_nothing 1718020800000 blankDraft H)).
Defined.

(** C6 as stated fails: an identifier that is not in the store is not
    answered by an error, both handlers return normally. *)
Lemma unknown_id_raises_nothing :
  ~ In "t9" (ids staleEdit)
  /\ call (toggleTask 1718020800000 "t9") staleEdit = Normal staleEdit
  /\ call (toggleTask 1718020800000 "t9") staleEdit <> Throw NotFoundError
  /\ call updateTask staleEdit <> Throw NotFoundError
  /\ tasks (updateTask staleEdit) = tasks staleEdit.
Proof.
  refine (conj _ (conj _ (conj _ (conj _ _)))); try reflexivity;
    try discriminate.
  simpl; intuition discriminate.
Qed.

(** C6, amended. For an identifier that no task of the store carries,
    [toggleTask] and [updateTask] return normally, raising nothing, and the
    tasks are as they were; [toggleTask] leaves the whole state as it
    was. *)
Theorem unknown_id_changes_nothing (now : Z) (i : string) (s : State) :
  ~ In i (ids s) ->
  call (toggleTask now i) s = Normal s
  /\ (forall e, editingTask s = Some e -> id e = i ->
                call updateTask s = Normal (updateTask s)
                /\ tasks (updateTask s) = tasks s).
Proof.
  intros Hi; split.
  - unfold call, toggleTask, setTasks; rewrite map_if_absent by exact Hi.
    destruct s; reflexivity.
  - intros e He <-; split; [reflexivity|].
    unfold updateTask; rewrite He.
    destruct (JsString.isEmpty _); simpl; auto.
    apply map_if_absent; exact Hi.
Qed.

Lemma unknown_id_changes_nothing_witness :
  ~ In "t9" (ids staleEdit)
  /\ call (toggleTask 1718020800000 "t9") staleEdit = Normal staleEdit
  /\ tasks (updateTask staleEdit) = tasks staleEdit.
Proof.
  assert (H : ~ In "t9" (ids staleEdit)).
  { simpl; intuition discriminate. }
  destruct (unknown_id_changes_nothing 1718020800000 "t9" staleEdit H)
    as [Ht Hu].
  split; [exact H | split; [exact Ht |]].
  exact (proj2 (Hu _ eq_refl eq_refl)).
Defined.

(** ** Editing a task *)

(** C9. With a title that is not blank, [updateTask] keeps the length of
    the store and, place by place, the identifier, the creation time, the
    completion flag and the completion time of every task; a task carrying
    the identifier of the edited task takes its title, description,
    priority, category and due date from the form, and a task carrying
    another identifier is left as it was. *)
Theorem updateTask_frame (s : State) (e : Task) :
  editingTask s = Some e ->
  ~ JsString.allWhiteSpace (fTitle (formData s)) ->
  List.length (tasks (updateTask s)) = List.length (tasks s)
  /\ forall n t,
       nth_error (tasks s) n = Some t ->
       exists t',
         nth_error (tasks (updateTask s)) n = Some t'
         /\ (id t' = id t /\ createdAt t' = createdAt t
             /\ completed t' = completed t /\ completedAt t' = completedAt t)
         /\ (id t = id e ->
             title t' = JsString.trim (fTitle (formData s))
             /\ description t' = JsString.trim (fDescription (formData s))
             /\ priority t' = fPriority (formData s)
             /\ category t' = fCategory (formData s)
             /\ dueDate t' = fDueDate (formData s))
         /\ (id t <> id e -> t' = t).
Proof.
  intros He Htitle.
  rewrite <- trim_empty_iff in Htitle.
  rewrite (updateTask_tasks s e He Htitle); split.
  - apply length_map.
  - intros n t Hn; rewrite nth_error_map, Hn; simpl.
    eexists; split; [reflexivity|].
    destruct (String.eqb_spec (id t) (id e)) as [E | N]; simpl.
    + split; [repeat split|]; split; [intros _; repeat split|].
      intros N; contradiction.
    + split; [repeat split|]; split; [|reflexivity].
      intros E; contradiction.
Qed.

Lemma updateTask_frame_witness :
  map (fun t => (id t, title t, completed t, dueDate t))
      (tasks (updateTask editing))
  = [("t1", "t1", false, ""); ("t2", "Write report", true, "2024-06-10")]
  /\ List.length (tasks (updateTask editing)) = List.length (tasks editing).
Proof.
  split; [reflexivity|].
  refine (proj1 (updateTask_frame editing (sampleTask "t2" high "" true)
                   eq_refl _)).
  intros H; apply trim_empty_iff in H; vm_compute in H; discriminate H.
Defined.

(** C10. When [addTask] or [updateTask] accepts the form, the description
    it stores is the description of the form trimmed: the same characters
    without a leading and a trailing run of white space, hence the empty
    string for a description of white space only. *)
Theorem description_stored_trimmed (now : Z) (s : State) :
  ~ JsString.allWhiteSpace (fTitle (formData s)) ->
  (exists t, tasks (addTask now s) = t :: tasks s
             /\ description t = JsString.trim (fDescription (formData s)))
  /\ (forall e t', editingTask s = Some e ->
                   In t' (tasks (updateTask s)) -> id t' = id e ->
                   description t' = JsString.trim (fDescription (formData s)))
  /\ (exists l r,
        fDescription (formData s)
        = l ++ JsString.trim (fDescription (formData s)) ++ r
        /\ JsString.allWhiteSpace l /\ JsString.allWhiteSpace r
        /\ JsString.startsClean (JsString.trim (fDescription (formData s)))
        /\ JsString.endsClean (JsString.trim (fDescription (formData s))))
  /\ (JsString.allWhiteSpace (fDescription (formData s)) ->
      JsString.trim (fDescription (formData s)) = "").
Proof.
  intros Htitle; rewrite <- trim_empty_iff in Htitle.
  refine (conj _ (conj _ (conj _ _))).
  - exists (newTask now (formData s)); split; [|reflexivity].
    apply addTask_tasks; exact Htitle.
  - intros e t' He Hin Hid.
    rewrite (updateTask_tasks s e He Htitle) in Hin.
    apply in_map_iff in Hin as (t & Ht & _).
    destruct (String.eqb_spec (id t) (id e)) as [E | N]; subst t'; auto.
    contradiction.
  - apply trim_spec.
  - apply trim_empty_iff.
Qed.

Lemma description_stored_trimmed_witness :
  map description (tasks (addTask 1718020800000 editing))
  = ["for Monday"; ""; ""]
  /\ exists t, tasks (addTask 1718020800000 editing) = t :: tasks editing
               /\ description t = "for Monday".
Proof.
  split; [reflexivity|].
  refine (proj1 (description_stored_trimmed 1718020800000 editing _)).
  intros H; apply trim_empty_iff in H; vm_compute in H; discriminate H.
Defined.

(** ** Overdue tasks *)

Section OverdueFacts.

Context {host : Host}.

Lemma markedOverdue_completed now t : completed t = true -> markedOverdue now t = false.
Proof. unfold markedOverdue; intros ->; apply andb_false_r. Qed.

Lemma markedOverdue_no_dueDate now t : dueDate t = "" -> markedOverdue now t = false.
Proof. unfold markedOverdue, isOverdue; intros ->; reflexivity. Qed.

(** The counter counts every task that is marked; it leaves out the
    comparison of date strings and so may count more. *)
Lemma markedOverdue_counted now t :
  markedOverdue now t = true -> countedOverdue now t = true.
Proof.
  unfold markedOverdue, countedOverdue, isOverdue.
  destruct (JsString.isEmpty (dueDate t)); simpl; [discriminate|].
  destruct (completed t); simpl; [rewrite andb_false_r; discriminate|].
  destruct (Date_lt _ _); auto.
Qed.

Lemma countedOverdue_marked_or_today now t :
  countedOverdue now t = true ->
  markedOverdue now t = true
  \/ toDateString (Date_parse (dueDate t)) = toDateString (Some now).
Proof.
  unfold markedOverdue, countedOverdue, isOverdue.
  destruct (String.eqb_spec (toDateString (Date_parse (dueDate t)))
                            (toDateString (Some now))) as [E | N];
    [right; exact E | left].
  destruct (JsString.isEmpty (dueDate t)), (completed t),
    (Date_lt (Date_parse (dueDate t)) (Some now));
    simpl in *; auto; discriminate.
Qed.

Lemma filter_length_le {A} (p q : A -> bool) (l : list A) :
  (forall x, p x = true -> q x = true) ->
  (List.length (List.filter p l) <= List.length (List.filter q l))%nat.
Proof.
  intros Hpq; induction l as [|x l IH]; simpl; auto.
  destruct (p x) eqn:Hp.
  - rewrite (Hpq x Hp); simpl; lia.
  - destruct (q x); simpl; lia.
Qed.

(** The counter is never below the number of marked tasks. *)
Lemma stats_overdue_ge_marked now s :
  (List.length (List.filter (markedOverdue now) (tasks s))
   <= Stats.overdue (stats now s))%nat.
Proof. apply filter_length_le, markedOverdue_counted. Qed.

End OverdueFacts.

(** *** Day arithmetic behind the mark

    A date-only due date of day number [k] is read as the time value
    [k * msPerDay]. With local time at a constant [offset] from UTC, the two
    tests of [isOverdue], the due time before [now] and another local day
    than that of [now], single out the days before the local day of [now]
    when the host is at or east of UTC, and the local day of [now] as well
    when it is west of UTC. *)

Lemma overdue_days_east (offset now k : Z) :
  0 <= offset < JsDate.msPerDay ->
  (k * JsDate.msPerDay < now
   /\ JsDate.Day (k * JsDate.msPerDay + offset) <> JsDate.Day (now + offset))
  <-> k < JsDate.Day (now + offset).
Proof.
  unfold JsDate.Day, JsDate.msPerDay; intros Hoff.
  split; [intros [H1 H2] | intros H; split];
    Z.div_mod_to_equations; lia.
Qed.

Lemma overdue_days_west (offset now k : Z) :
  - JsDate.msPerDay < offset < 0 ->
  (k * JsDate.msPerDay < now
   /\ JsDate.Day (k * JsDate.msPerDay + offset) <> JsDate.Day (now + offset))
  <-> k <= JsDate.Day (now + offset).
Proof.
  unfold JsDate.Day, JsDate.msPerDay; intros Hoff.
  split; [intros [H1 H2] | intros H; split];
    Z.div_mod_to_equations; lia.
Qed.

(** C1. At noon UTC on 10 June 2024, on a host in UTC, an active task due
    on 2024-06-10 is due on the current calendar day and is not marked
    overdue by [isOverdue], yet the counter [overdue] of [stats] counts
    it. *)
Theorem stats_overdue_counts_task_due_today :
  let t := sampleTask "t1" medium "2024-06-10" false in
  @toDateString utcHost (Some noon_2024_06_10) = "Mon Jun 10 2024"
  /\ @toDateString utcHost (@Date_parse utcHost (dueDate t)) = "Mon Jun 10 2024"
  /\ @markedOverdue utcHost noon_2024_06_10 t = false
  /\ List.length (List.filter (@markedOverdue utcHost noon_2024_06_10) [t]) = 0%nat
  /\ Stats.overdue (@stats utcHost noon_2024_06_10 (withTasks [t])) = 1%nat.
Proof. vm_compute; repeat split. Qed.

(** C2. At noon UTC on 10 June 2024, on a host five hours behind UTC, the
    local calendar day is 10 June 2024 and an active task due on 2024-06-10
    is marked overdue; a host in UTC does not mark it. *)
Theorem isOverdue_marks_task_due_today_west_of_utc :
  let t := sampleTask "t1" medium "2024-06-10" false in
  @toDateString westHost (Some noon_2024_06_10) = "Mon Jun 10 2024"
  /\ @toDateString westHost (@Date_parse westHost (dueDate t)) = "Sun Jun 09 2024"
  /\ @markedOverdue westHost noon_2024_06_10 t = true
  /\ @markedOverdue utcHost noon_2024_06_10 t = false.
Proof. vm_compute; repeat split. Qed.

(** * Further properties of the code *)

(** ** Trimming *)

Lemma trimStart_clean s : JsString.startsClean s -> JsString.trimStart s = s.
Proof. destruct s as [|c s]; simpl; auto. intros ->; reflexivity. Qed.

Lemma trimEnd_clean s : JsString.endsClean s -> JsString.trimEnd s = s.
Proof.
  induction s as [|c s IH]; auto.
  intros H; cbn [JsString.trimEnd]; cbv zeta.
  destruct s as [|c' s'].
  - simpl in *; rewrite H; reflexivity.
  - rewrite IH by exact H.
    replace (JsString.isEmpty (String c' s')) with false by reflexivity.
    rewrite andb_false_r; reflexivity.
Qed.

Lemma trim_idempotent s : JsString.trim (JsString.trim s) = JsString.trim s.
Proof.
  destruct (trim_spec s) as (_ & _ & _ & _ & _ & Hs & He).
  unfold JsString.trim at 1.
  rewrite trimStart_clean by exact Hs.
  apply trimEnd_clean; exact He.
Qed.

Lemma Subseq_refl {A} (l : list A) : Subseq l l.
Proof. induction l; [apply Subseq_nil | apply Subseq_keep; auto]. Qed.

Lemma Subseq_nil_l {A} (l : list A) : Subseq [] l.
Proof. induction l; [apply Subseq_nil | apply Subseq_skip; auto]. Qed.

Lemma Subseq_trans {A} (l1 l2 l3 : list A) :
  Subseq l1 l2 -> Subseq l2 l3 -> Subseq l1 l3.
Proof.
  intros H12 H23; revert l1 H12.
  induction H23 as [| x l2 l3 _ IH | x l2 l3 _ IH]; intros l1 H12.
  - exact H12.
  - apply Subseq_skip; auto.
  - inversion H12; subst; [apply Subseq_skip | apply Subseq_keep]; auto.
Qed.

Lemma Subseq_filter {A} (p : A -> bool) (l : list A) : Subseq (List.filter p l) l.
Proof.
  induction l as [|x l IH]; simpl; [apply Subseq_nil|].
  destruct (p x); [apply Subseq_keep | apply Subseq_skip]; auto.
Qed.

Lemma Subseq_In {A} (l1 l2 : list A) x : Subseq l1 l2 -> In x l1 -> In x l2.
Proof.
  induction 1; simpl; auto.
  intros [-> | H']; auto.
Qed.

Lemma Subseq_app_r {A} (l1 l2 l : list A) :
  Subseq l1 l2 -> Subseq l1 (l2 ++ l)%list.
Proof.
  induction 1; simpl.
  - apply Subseq_nil_l.
  - apply Subseq_skip; auto.
  - apply Subseq_keep; auto.
Qed.

Lemma Subseq_snoc {A} (l1 l2 : list A) x :
  Subseq l1 l2 -> Subseq (l1 ++ [x])%list (l2 ++ [x])%list.
Proof.
  induction 1; simpl.
  - apply Subseq_keep, Subseq_nil.
  - apply Subseq_skip; auto.
  - apply Subseq_keep; auto.
Qed.

(** ** What a session leaves in the store *)

Section SessionFacts.

Lemma withForm_tidy d t :
  JsString.trim (fTitle d) <> "" -> tidyText (withForm d t).
Proof.
  intros H; unfold tidyText, trimmed; simpl.
  rewrite !trim_idempotent; auto.
Qed.

Lemma step_tidy s a :
  Forall tidyText (tasks s) -> Forall tidyText (tasks (step s a)).
Proof.
  intros H; destruct a as [d | now | t | | now i | i | ]; simpl; auto.
  - unfold addTask.
    destruct (JsString.isEmpty _) eqn:E; simpl; auto.
    constructor; auto.
    apply isEmpty_false_iff in E.
    unfold tidyText, trimmed; simpl; rewrite !trim_idempotent; auto.
  - unfold updateTask; destruct (editingTask s) as [e|]; auto.
    destruct (JsString.isEmpty _) eqn:E; simpl; auto.
    apply isEmpty_false_iff in E.
    rewrite Forall_forall in H |- *; intros t Ht.
    apply in_map_iff in Ht as (u & <- & Hu).
    destruct (String.eqb (id u) (id e)); auto.
    apply withForm_tidy; exact E.
  - rewrite Forall_forall in H |- *; intros t Ht.
    apply in_map_iff in Ht as (u & <- & Hu).
    destruct (String.eqb (id u) i); auto.
    exact (H u Hu).
  - rewrite Forall_forall in H |- *; intros t Ht.
    apply filter_In in Ht as [Ht _]; auto.
Qed.

(** X1. In every session that starts from the empty store, each stored task
    has a title that is not empty, and its title and description have no
    white space at either end. *)
Theorem session_keeps_text_tidy (acts : list Action) :
  Forall tidyText (tasks (run acts initialState))
  /\ Forall (fun t => JsString.startsClean (title t)
                      /\ JsString.endsClean (title t)
                      /\ ~ JsString.allWhiteSpace (title t))
            (tasks (run acts initialState)).
Proof.
  assert (G : forall s, Forall tidyText (tasks s) ->
                        Forall tidyText (tasks (run acts s))).
  { induction acts as [|a acts IH]; intros s Hs; simpl; auto.
    apply IH, step_tidy, Hs. }
  assert (T : Forall tidyText (tasks (run acts initialState))).
  { apply G; constructor. }
  split; [exact T|].
  apply (Forall_impl _ (P := tidyText)); [|exact T].
  intros t (Hne & Ht & _); unfold trimmed in Ht.
  destruct (trim_spec (title t)) as (_ & _ & _ & _ & _ & Hs & He).
  rewrite Ht in Hs, He; repeat split; auto.
  intros Hw; apply trim_empty_iff in Hw; congruence.
Qed.

Lemma Forall2_createdWhen_map (f : Task -> Task) ts l :
  (forall t, id (f t) = id t /\ createdAt (f t) = createdAt t) ->
  Forall2 createdWhen ts l ->
  forall c, Forall2 createdWhen ts (map (fun t => if c t : bool then f t else t) l).
Proof.
  intros Hf H c; induction H as [|n t ts l Hn _ IH]; simpl; constructor; auto.
  destruct (c t); auto.
  destruct (Hf t) as [E1 E2], Hn as [H1 H2].
  split; congruence.
Qed.

Lemma Forall2_createdWhen_filter (p : Task -> bool) ts l :
  Forall2 createdWhen ts l ->
  exists ts', Subseq ts' ts /\ Forall2 createdWhen ts' (List.filter p l).
Proof.
  induction 1 as [|n t ts l Hn _ (ts' & Hs & Hf)]; simpl.
  - exists []; split; constructor.
  - destruct (p t).
    + exists (n :: ts'); split; [apply Subseq_keep | constructor]; auto.
    + exists ts'; split; [apply Subseq_skip|]; auto.
Qed.

Lemma run_created acts : forall s past,
  (exists ts, Subseq ts (rev past) /\ Forall2 createdWhen ts (tasks s)) ->
  exists ts, Subseq ts (rev (past ++ addTimes acts))
             /\ Forall2 createdWhen ts (tasks (run acts s)).
Proof.
  induction acts as [|a acts IH]; intros s past (ts & Hs & Hf); simpl.
  - rewrite app_nil_r; eauto.
  - destruct a as [d | now | t | | now i | i | ]; simpl;
      try (apply IH; exists ts; split; auto; fail).
    + replace (past ++ now :: addTimes acts)%list
        with ((past ++ [now]) ++ addTimes acts)%list
        by (rewrite <- app_assoc; reflexivity).
      apply IH; rewrite rev_app_distr; simpl.
      unfold addTask; destruct (JsString.isEmpty _); simpl.
      * exists ts; split; [apply Subseq_skip|]; auto.
      * exists (now :: ts); split; [apply Subseq_keep | constructor]; auto.
        split; reflexivity.
    + apply IH; exists ts; split; auto.
      unfold updateTask; destruct (editingTask s) as [e|]; auto.
      destruct (JsString.isEmpty _); simpl; auto.
      apply Forall2_createdWhen_map; auto.
    + apply IH; exists ts; split; auto.
      simpl; apply Forall2_createdWhen_map; auto.
    + apply IH.
      destruct (Forall2_createdWhen_filter
                  (fun task => negb (String.eqb (id task) i)) _ _ Hf)
        as (ts' & Hs' & Hf').
      exists ts'; split; auto.
      apply (Subseq_trans _ ts); auto.
Qed.

Lemma createdWhen_ids ts l :
  Forall2 createdWhen ts l -> map id l = map Number_toString ts.
Proof.
  induction 1 as [|n t ts l [Hn _] _ IH]; simpl; auto.
  rewrite Hn, IH; reflexivity.
Qed.

(** X2. In every session that starts from the empty store, the identifiers
    of the stored tasks are, in the order of the store, the numerals of
    clock readings at which the session ran [addTask], taken in the reverse
    of the order in which it ran them: a new task goes to the front, and
    no handler reorders the store or changes an identifier. The reading
    meant is that of [Date.now ()], from which [addTask] makes the
    identifier. *)
Theorem session_store_newest_first (acts : list Action) :
  exists ts,
    Subseq ts (rev (addTimes acts))
    /\ ids (run acts initialState) = map Number_toString ts.
Proof.
  destruct (run_created acts initialState []) as (ts & Hsub & Hcr).
  { exists []; split; constructor. }
  exists ts; split; [exact Hsub | apply createdWhen_ids; exact Hcr].
Qed.

End SessionFacts.

(** ** Deleting, toggling, editing *)

Section HandlerFacts.

Lemma filter_filter_same {A} (p : A -> bool) l :
  List.filter p (List.filter p l) = List.filter p l.
Proof.
  induction l as [|x l IH]; simpl; auto.
  destruct (p x) eqn:E; simpl; rewrite ?E, IH; auto.
Qed.

Lemma filter_filter_comm {A} (p q : A -> bool) l :
  List.filter p (List.filter q l) = List.filter q (List.filter p l).
Proof.
  induction l as [|x l IH]; simpl; auto.
  destruct (p x) eqn:Ep, (q x) eqn:Eq; simpl; rewrite ?Ep, ?Eq, IH; auto.
Qed.

Lemma filter_all_true {A} (p : A -> bool) l :
  (forall x, In x l -> p x = true) -> List.filter p l = l.
Proof.
  induction l as [|x l IH]; simpl; auto.
  intros H; rewrite (H x (or_introl eq_refl)), IH; auto.
Qed.

Lemma Forall2_map_r {A B} (R : A -> B -> Prop) (f : A -> B) l :
  (forall x, In x l -> R x (f x)) -> Forall2 R l (map f l).
Proof.
  induction l as [|x l IH]; simpl; constructor; auto.
Qed.

Lemma NoDup_ids_eq (l : list Task) a b :
  NoDup (map id l) -> In a l -> In b l -> id a = id b -> a = b.
Proof.
  induction l as [|x l IH]; simpl; [contradiction|].
  intros H Ha Hb E; inversion H as [|? ? Hx Hl]; subst.
  destruct Ha as [-> | Ha], Hb as [-> | Hb]; auto.
  - exfalso; apply Hx; rewrite E; apply in_map; exact Hb.
  - exfalso; apply Hx; rewrite <- E; apply in_map; exact Ha.
Qed.

Lemma Subseq_into_filter {A} (p : A -> bool) (l' l : list A) :
  Subseq l' l -> Forall (fun x => p x = true) l' -> Subseq l' (List.filter p l).
Proof.
  induction 1 as [| x l1 l2 _ IH | x l1 l2 _ IH]; intros Hp; simpl.
  - apply Subseq_nil.
  - destruct (p x); [apply Subseq_skip|]; auto.
  - inversion Hp as [|? ? Hx Hl]; subst.
    rewrite Hx; apply Subseq_keep; auto.
Qed.

(** X3. [deleteTask] removes the tasks that carry the identifier and nothing
    else. What stays is the store with tasks left out, in the same order;
    no task that stays carries the identifier; every way of leaving out
    tasks of the store so that none carries the identifier leaves out at
    least the tasks [deleteTask] leaves out, so each other task stays as
    often as the store held it; and the tasks left out are as many as the
    tasks that carried the identifier. The form and the task under edit
    are not touched, also when the deleted task is the one under edit. *)
Theorem deleteTask_removes_exactly (i : string) (s : State) :
  Subseq (tasks (deleteTask i s)) (tasks s)
  /\ Forall (fun t => id t <> i) (tasks (deleteTask i s))
  /\ (forall l', Subseq l' (tasks s) -> Forall (fun t => id t <> i) l' ->
                 Subseq l' (tasks (deleteTask i s)))
  /\ (List.length (tasks (deleteTask i s))
      + List.length (List.filter (fun t => String.eqb (id t) i) (tasks s)))%nat
     = List.length (tasks s)
  /\ (forall t, In t (tasks (deleteTask i s)) <-> In t (tasks s) /\ id t <> i)
  /\ editingTask (deleteTask i s) = editingTask s
  /\ formData (deleteTask i s) = formData s
  /\ showAddForm (deleteTask i s) = showAddForm s.
Proof.
  assert (M : forall t, In t (tasks (deleteTask i s))
                        <-> In t (tasks s) /\ id t <> i).
  { intros t; simpl; rewrite filter_In.
    destruct (String.eqb_spec (id t) i); simpl; intuition congruence. }
  refine (conj _ (conj _ (conj _ (conj _ (conj M _))))).
  - apply Subseq_filter.
  - apply Forall_forall; intros t Ht; apply M in Ht as [_ Ht]; exact Ht.
  - intros l' Hsub Hl'; simpl; apply Subseq_into_filter; auto.
    apply (Forall_impl _ (P := fun t => id t <> i)); [|exact Hl'].
    intros t Ht; apply negb_true_iff, String.eqb_neq; exact Ht.
  - simpl.
    rewrite <- (filter_length (fun t => String.eqb (id t) i) (tasks s)).
    apply Nat.add_comm.
  - repeat split.
Qed.

(** X4. Deleting twice is deleting once, and deletions commute. *)
Theorem deleteTask_idempotent_commutes (i j : string) (s : State) :
  deleteTask i (deleteTask i s) = deleteTask i s
  /\ deleteTask i (deleteTask j s) = deleteTask j (deleteTask i s).
Proof.
  unfold deleteTask, setTasks; simpl; split; f_equal.
  - apply filter_filter_same.
  - apply filter_filter_comm.
Qed.

(** X5. Deleting an identifier that no task carries leaves the whole state as
    it was. *)
Theorem deleteTask_unknown_id (i : string) (s : State) :
  ~ In i (ids s) -> deleteTask i s = s.
Proof.
  intros Hi; unfold deleteTask, setTasks.
  rewrite filter_all_true; [destruct s; reflexivity|].
  intros t Ht; destruct (String.eqb_spec (id t) i) as [E | N]; auto.
  exfalso; apply Hi; rewrite <- E; apply in_map; exact Ht.
Qed.

Lemma deleteTask_unknown_id_witness :
  ~ In "t9" (ids staleEdit) /\ deleteTask "t9" staleEdit = staleEdit.
Proof.
  assert (H : ~ In "t9" (ids staleEdit)).
  { simpl; intuition discriminate. }
  split; [exact H | exact (deleteTask_unknown_id "t9" staleEdit H)].
Defined.

(** X6. [toggleTask] keeps the length and the order of the store and, place by
    place, every field but the completion flag and time; a task with
    another identifier is left as it was, and every task with the
    identifier, should there be several, has its flag flipped and its
    completion time set to the current time or removed. The form and the
    task under edit are not touched. *)
Theorem toggleTask_frame (now : Z) (i : string) (s : State) :
  Forall2
    (fun t t' =>
       (id t' = id t /\ title t' = title t /\ description t' = description t
        /\ priority t' = priority t /\ category t' = category t
        /\ dueDate t' = dueDate t /\ createdAt t' = createdAt t)
       /\ (id t <> i -> t' = t)
       /\ (id t = i ->
           completed t' = negb (completed t)
           /\ completedAt t'
              = if completed t then None
                else Some (JsDate.toISOString now)))
    (tasks s) (tasks (toggleTask now i s))
  /\ editingTask (toggleTask now i s) = editingTask s
  /\ formData (toggleTask now i s) = formData s.
Proof.
  refine (conj _ (conj _ _)); try reflexivity.
  simpl; apply Forall2_map_r; intros t _.
  destruct (String.eqb_spec (id t) i) as [E | N].
  - split; [repeat split|]; split; [intros N; contradiction|].
    intros _; simpl; split; auto.
    destruct (completed t); reflexivity.
  - split; [repeat split|]; split; [reflexivity|].
    intros E; contradiction.
Qed.

(** X7. Toggling the same identifier twice gives back every task as it was,
    but for the completion time of a task that was completed: it is
    replaced by the time of the second toggle. A task that was active and
    had no completion time is restored exactly. *)
Theorem toggleTask_twice (now1 now2 : Z) (i : string) (s : State) :
  Forall2
    (fun t t' =>
       (id t' = id t /\ title t' = title t /\ description t' = description t
        /\ completed t' = completed t
        /\ priority t' = priority t /\ category t' = category t
        /\ dueDate t' = dueDate t /\ createdAt t' = createdAt t)
       /\ (id t <> i -> t' = t)
       /\ (id t = i ->
           completedAt t'
           = if completed t then Some (JsDate.toISOString now2) else None)
       /\ (completed t = false -> completedAt t = None -> t' = t))
    (tasks s) (tasks (toggleTask now2 i (toggleTask now1 i s))).
Proof.
  simpl; rewrite map_map; apply Forall2_map_r; intros t _.
  destruct (String.eqb_spec (id t) i) as [E | N].
  - simpl; rewrite E, String.eqb_refl; simpl.
    rewrite negb_involutive.
    split; [repeat split; auto|]; split; [intros N; contradiction|].
    split.
    + intros _; destruct (completed t); reflexivity.
    + intros Hc Ha; destruct t; simpl in *; subst; reflexivity.
  - destruct (String.eqb_spec (id t) i) as [E | _]; [contradiction|].
    split; [repeat split|]; split; [reflexivity|].
    split; [intros E; contradiction | reflexivity].
Qed.

(** X8. Opening a stored task in the editor and saving it unchanged leaves the
    store as it was, when identifiers are unique and the stored texts are
    tidy, as every session from the empty store leaves them; the editor
    returns to an empty add form. *)
Theorem edit_and_save_unchanged (t : Task) (s : State) :
  NoDup (ids s) ->
  Forall tidyText (tasks s) ->
  In t (tasks s) ->
  tasks (updateTask (startEdit t s)) = tasks s
  /\ editingTask (updateTask (startEdit t s)) = None
  /\ formData (updateTask (startEdit t s)) = emptyForm.
Proof.
  intros Hnd Htidy Hin.
  rewrite Forall_forall in Htidy.
  destruct (Htidy t Hin) as (Hne & Ht & Hd); unfold trimmed in Ht, Hd.
  unfold updateTask; cbn [editingTask startEdit setShowAddForm setFormData
                          setEditingTask formData fTitle].
  rewrite Ht; apply isEmpty_false_iff in Hne; rewrite Hne.
  refine (conj _ (conj _ _)); try reflexivity.
  cbn [tasks setEditingTask resetForm setFormData setTasks setShowAddForm].
  transitivity (map (fun u : Task => u) (tasks s)); [|apply map_id].
  apply map_ext_in; intros u Hu.
  destruct (String.eqb_spec (id u) (id t)) as [E | N]; auto.
  assert (u = t) by (apply (NoDup_ids_eq (tasks s)); auto).
  subst u; unfold withForm; simpl; rewrite Ht, Hd.
  destruct t; reflexivity.
Qed.

Lemma edit_and_save_unchanged_witness :
  let t := sampleTask "t2" high "2024-06-10" true in
  let s := withTasks [sampleTask "t1" low "" false; t] in
  In t (tasks s) /\ tasks (updateTask (startEdit t s)) = tasks s.
Proof.
  intros t s.
  assert (Hin : In t (tasks s)) by (right; left; reflexivity).
  assert (Hnd : NoDup (ids s)).
  { repeat constructor; simpl; intuition discriminate. }
  assert (Htidy : Forall tidyText (tasks s)).
  { repeat constructor; simpl; discriminate. }
  split; [exact Hin |].
  exact (proj1 (edit_and_save_unchanged t s Hnd Htidy Hin)).
Defined.

(** X9. Cancelling discards the edit and whatever was typed: after
    [startEdit] or a change of the form, [cancelForm] gives the state it
    gives without them; it never touches the tasks, and cancelling twice is
    cancelling once. *)
Theorem cancelForm_discards (t : Task) (d : FormData) (s : State) :
  cancelForm (startEdit t s) = cancelForm s
  /\ cancelForm (setFormData d s) = cancelForm s
  /\ cancelForm (cancelForm s) = cancelForm s
  /\ tasks (cancelForm s) = tasks s
  /\ editingTask (cancelForm s) = None
  /\ formData (cancelForm s) = emptyForm
  /\ showAddForm (cancelForm s) = false.
Proof. repeat split. Qed.

(** X10. The save button, with a title that is not blank. While a task is under
    edit it keeps the number of tasks and their identifiers, leaves edit
    mode with an empty form, and does not close the form; otherwise it puts
    one new task at the front of the store, empties the form and closes
    it. *)
Theorem submit_accepted (now : Z) (s : State) :
  ~ JsString.allWhiteSpace (fTitle (formData s)) ->
  formData (submit now s) = emptyForm
  /\ editingTask (submit now s) = None
  /\ (forall e, editingTask s = Some e ->
        ids (submit now s) = ids s
        /\ List.length (tasks (submit now s)) = List.length (tasks s)
        /\ showAddForm (submit now s) = showAddForm s)
  /\ (editingTask s = None ->
        tasks (submit now s) = newTask now (formData s) :: tasks s
        /\ showAddForm (submit now s) = false).
Proof.
  intros H; rewrite <- trim_empty_iff in H; apply isEmpty_false_iff in H.
  unfold submit, updateTask, addTask.
  destruct (editingTask s) as [e|] eqn:He; rewrite H.
  - refine (conj eq_refl (conj eq_refl (conj _ _))); [|discriminate].
    intros e' _; unfold ids; simpl; rewrite length_map.
    split; [|split; reflexivity].
    apply map_if_id; reflexivity.
  - refine (conj eq_refl (conj He (conj _ _))); [discriminate|].
    intros _; split; reflexivity.
Qed.

Lemma submit_accepted_witness :
  showAddForm (submit 1718020800000 (startEdit (sampleTask "t2" high "" true) editing))
  = true
  /\ formData (submit 1718020800000 editing) = emptyForm.
Proof.
  split; [reflexivity|].
  refine (proj1 (submit_accepted 1718020800000 editing _)).
  intros H; apply trim_empty_iff in H; vm_compute in H; discriminate H.
Defined.

End HandlerFacts.

(** ** The counters *)

Section StatsFacts.

Context {host : Host}.

Lemma filter_and {A} (p q : A -> bool) l :
  List.filter q (List.filter p l) = List.filter (fun x => p x && q x) l.
Proof.
  induction l as [|x l IH]; simpl; auto.
  destruct (p x); simpl; [destruct (q x)|]; rewrite IH; auto.
Qed.

Lemma NoDup_ids_split (l1 l2 : list Task) t :
  NoDup (map id (l1 ++ t :: l2)) ->
  ~ In (id t) (map id l1) /\ ~ In (id t) (map id l2).
Proof.
  rewrite map_app; simpl; intros H.
  apply NoDup_remove_2 in H.
  split; intros Hin; apply H, in_or_app; auto.
Qed.

(** X11. Every task is counted as completed or as active, never as both, and
    only active tasks are counted as overdue; the counters read the whole
    store, whatever the filters, the search term and the form hold. *)
Theorem stats_partition (now : Z) (s : State) :
  Stats.total (stats now s)
  = (Stats.completed (stats now s) + Stats.active (stats now s))%nat
  /\ (Stats.overdue (stats now s) <= Stats.active (stats now s))%nat
  /\ (forall f k term c d,
        stats now (setFilter f (setSortBy k (setSearchTerm term
                     (setSelectedCategory c (setFormData d s)))))
        = stats now s).
Proof.
  refine (conj _ (conj _ _)); simpl.
  - symmetry; apply filter_length.
  - apply filter_length_le; intros t.
    unfold countedOverdue; destruct (completed t); simpl; auto.
  - reflexivity.
Qed.

(** X12. Toggling a stored task whose identifier is unique moves one unit
    between the counters of active and of completed tasks and keeps the
    total. *)
Theorem stats_after_toggle (now now' : Z) (t : Task) (s : State) :
  NoDup (ids s) ->
  In t (tasks s) ->
  Stats.total (stats now (toggleTask now' (id t) s)) = Stats.total (stats now s)
  /\ (if completed t
      then S (Stats.completed (stats now (toggleTask now' (id t) s)))
           = Stats.completed (stats now s)
           /\ Stats.active (stats now (toggleTask now' (id t) s))
              = S (Stats.active (stats now s))
      else Stats.completed (stats now (toggleTask now' (id t) s))
           = S (Stats.completed (stats now s))
           /\ S (Stats.active (stats now (toggleTask now' (id t) s)))
              = Stats.active (stats now s)).
Proof.
  intros Hnd Hin; unfold ids in Hnd.
  apply in_split in Hin as (l1 & l2 & Hl).
  simpl; rewrite Hl in *.
  destruct (NoDup_ids_split l1 l2 t Hnd) as [H1 H2].
  rewrite map_app; simpl.
  rewrite String.eqb_refl, !map_if_absent by auto.
  rewrite !filter_app, !length_app; simpl.
  destruct (completed t); simpl; rewrite ?length_app; simpl; lia.
Qed.

(** X13. A task accepted by [addTask] adds one to the total and to the active
    tasks, nothing to the completed ones, and one to the overdue tasks
    exactly when its due date is a readable date before now. *)
Theorem stats_after_addTask (now now' : Z) (s : State) :
  ~ JsString.allWhiteSpace (fTitle (formData s)) ->
  Stats.total (stats now (addTask now' s)) = S (Stats.total (stats now s))
  /\ Stats.active (stats now (addTask now' s)) = S (Stats.active (stats now s))
  /\ Stats.completed (stats now (addTask now' s)) = Stats.completed (stats now s)
  /\ Stats.overdue (stats now (addTask now' s))
     = ((if negb (JsString.isEmpty (fDueDate (formData s)))
            && Date_lt (Date_parse (fDueDate (formData s))) (Some now)
         then 1 else 0) + Stats.overdue (stats now s))%nat.
Proof.
  intros H; rewrite <- trim_empty_iff in H.
  unfold stats; rewrite (addTask_tasks now' s H); simpl.
  refine (conj eq_refl (conj eq_refl (conj eq_refl _))).
  unfold countedOverdue at 1; simpl.
  destruct (negb _ && Date_lt _ _); reflexivity.
Qed.

(** X14. The counter of overdue tasks and the overdue mark of the list differ
    by the active tasks that are due before now and whose date string is
    that of today: the counter counts them, the list does not mark them. *)
Theorem stats_overdue_decomposition (now : Z) (s : State) :
  Stats.overdue (stats now s)
  = (List.length (List.filter (markedOverdue now) (tasks s))
     + List.length
         (List.filter
            (fun t => countedOverdue now t
                      && String.eqb (toDateString (Date_parse (dueDate t)))
                                    (toDateString (Some now)))
            (tasks s)))%nat.
Proof.
  simpl; induction (tasks s) as [|t l IH]; simpl; auto.
  assert (E : markedOverdue now t
              = countedOverdue now t
                && negb (String.eqb (toDateString (Date_parse (dueDate t)))
                                    (toDateString (Some now)))).
  { unfold markedOverdue, countedOverdue, isOverdue.
    destruct (JsString.isEmpty (dueDate t)), (completed t),
      (Date_lt (Date_parse (dueDate t)) (Some now)),
      (String.eqb _ _); reflexivity. }
  rewrite E.
  destruct (countedOverdue now t), (String.eqb _ _); simpl; lia.
Qed.

(** X15. A task is counted as overdue only if it is active and its due date is
    a readable date before now; an unreadable or absent due date is never
    counted; and a task that is counted stays counted as time passes. *)
Theorem counted_overdue_is_past_due (now : Z) (t : Task) :
  countedOverdue now t = true ->
  completed t = false
  /\ dueDate t <> ""
  /\ (exists d, Date_parse (dueDate t) = Some d /\ d < now)
  /\ (forall now', now <= now' -> countedOverdue now' t = true).
Proof.
  unfold countedOverdue, Date_lt.
  destruct (completed t); simpl; [discriminate|].
  destruct (JsString.isEmpty (dueDate t)) eqn:E; simpl; [discriminate|].
  destruct (Date_parse (dueDate t)) as [d|]; [|discriminate].
  intros H; apply Z.ltb_lt in H.
  refine (conj eq_refl (conj _ (conj _ _))).
  - apply isEmpty_false_iff; exact E.
  - exists d; auto.
  - intros now' Hle; apply Z.ltb_lt; lia.
Qed.

End StatsFacts.

Lemma stats_after_toggle_witness :
  let s := withTasks [sampleTask "t1" low "" false;
                      sampleTask "t2" high "2024-06-10" true] in
  Stats.total (@stats utcHost 0 (toggleTask 5 "t2" s)) = 2%nat
  /\ Stats.total (@stats utcHost 0 (toggleTask 5 "t2" s))
     = Stats.total (@stats utcHost 0 s).
Proof.
  intros s; split; [reflexivity|].
  refine (proj1 (@stats_after_toggle utcHost 0 5
                   (sampleTask "t2" high "2024-06-10" true) s _ _)).
  - repeat constructor; simpl; intuition discriminate.
  - right; left; reflexivity.
Defined.

Lemma stats_after_addTask_witness :
  Stats.overdue (@stats utcHost noon_2024_06_10 (addTask 5 editing)) = 1%nat
  /\ Stats.total (@stats utcHost noon_2024_06_10 (addTask 5 editing)) = 3%nat.
Proof.
  split; [reflexivity|].
  refine (proj1 (@stats_after_addTask utcHost noon_2024_06_10 5 editing _)).
  intros H; apply trim_empty_iff in H; vm_compute in H; discriminate H.
Defined.

Lemma counted_overdue_is_past_due_witness :
  @countedOverdue utcHost noon_2024_06_10
    (sampleTask "t1" low "2024-06-09" false) = true
  /\ @countedOverdue utcHost (noon_2024_06_10 + 1)
       (sampleTask "t1" low "2024-06-09" false) = true.
Proof.
  split; [reflexivity|].
  refine (proj2 (proj2 (proj2
            (@counted_overdue_is_past_due utcHost noon_2024_06_10
               (sampleTask "t1" low "2024-06-09" false) eq_refl)))
            (noon_2024_06_10 + 1) _).
  unfold noon_2024_06_10; lia.
Defined.

(** ** The view *)

Section SearchFacts.

Import JsString.

Lemma startsWith_spec p : forall s,
  startsWith p s = true <-> exists b, s = p ++ b.
Proof.
  induction p as [|a p IH]; intros s; simpl.
  - split; [exists s; reflexivity | reflexivity].
  - destruct s as [|c s]; simpl.
    + split; [discriminate | intros (b & Hb); discriminate].
    + rewrite andb_true_iff, IH; split.
      * intros (Hac & b & ->); apply Ascii.eqb_eq in Hac; subst.
        exists b; reflexivity.
      * intros (b & Hb); injection Hb as -> ->.
        split; [apply Ascii.eqb_refl | exists b; reflexivity].
Qed.

(** [includes s p] holds exactly when [p] occurs in [s]. *)
Lemma includes_spec s p : includes s p = true <-> occursIn p s.
Proof.
  unfold occursIn; split.
  - induction s as [|c s IH].
    + simpl; rewrite orb_false_r; intros H.
      apply startsWith_spec in H as (b & ->).
      exists "", b; reflexivity.
    + cbn [includes]; intros H; apply orb_true_iff in H as [H | H].
      * apply startsWith_spec in H as (b & ->).
        exists "", b; reflexivity.
      * destruct (IH H) as (a & b & ->).
        exists (String c a), b; reflexivity.
  - intros (a & b & ->).
    induction a as [|c a IH].
    + simpl.
      assert (H : startsWith p (p ++ b) = true)
        by (apply startsWith_spec; exists b; reflexivity).
      destruct (p ++ b); simpl in *; rewrite H; reflexivity.
    + cbn [append includes]; rewrite IH; apply orb_true_r.
Qed.

Lemma toLowerCase_empty s : isEmpty (toLowerCase s) = isEmpty s.
Proof. destruct s; reflexivity. Qed.

End SearchFacts.

Section ViewFurther.

Context {host : Host}.

Lemma StronglySorted_filter {A} (R : A -> A -> Prop) (p : A -> bool) l :
  StronglySorted R l -> StronglySorted R (List.filter p l).
Proof.
  induction 1 as [|x l Hs IH Hx]; simpl; [constructor|].
  destruct (p x); auto.
  constructor; auto.
  rewrite Forall_forall in Hx |- *; intros y Hy.
  apply filter_In in Hy as [Hy _]; auto.
Qed.

(** X16. A task passes the filter exactly when its completion flag fits the
    status filter, the search term is empty or occurs, letter case aside,
    in its title or in its description, and the category filter is empty
    or is its category. *)
Theorem visible_spec (s : State) (t : Task) :
  visible s t = true
  <-> match filter s with
      | all => True
      | active => completed t = false
      | completedOnly => completed t = true
      end
      /\ (searchTerm s = ""
          \/ occursIn (JsString.toLowerCase (searchTerm s))
                      (JsString.toLowerCase (title t))
          \/ occursIn (JsString.toLowerCase (searchTerm s))
                      (JsString.toLowerCase (description t)))
      /\ (selectedCategory s = "" \/ category t = selectedCategory s).
Proof.
  pose proof (isEmpty_true_iff (searchTerm s)) as He.
  pose proof (isEmpty_true_iff (selectedCategory s)) as Hc.
  pose proof (includes_spec (JsString.toLowerCase (title t))
                            (JsString.toLowerCase (searchTerm s))) as H1.
  pose proof (includes_spec (JsString.toLowerCase (description t))
                            (JsString.toLowerCase (searchTerm s))) as H2.
  pose proof (String.eqb_eq (category t) (selectedCategory s)) as Hq.
  unfold visible.
  destruct (JsString.isEmpty (searchTerm s)),
    (JsString.includes (JsString.toLowerCase (title t)) _),
    (JsString.includes (JsString.toLowerCase (description t)) _),
    (JsString.isEmpty (selectedCategory s)),
    (String.eqb (category t) (selectedCategory s)),
    (filter s), (completed t); simpl;
    intuition (try discriminate; try congruence).
Qed.

Lemma view_shows_exactly_visible_core (s : State) :
  Permutation (List.filter (visible s) (tasks s)) (filteredTasks s)
  /\ (forall t, In t (filteredTasks s) <-> In t (tasks s) /\ visible s t = true)
  /\ (List.length (filteredTasks s) <= List.length (tasks s))%nat.
Proof.
  assert (P : Permutation (List.filter (visible s) (tasks s)) (filteredTasks s))
    by apply sort_perm.
  refine (conj P (conj _ _)).
  - intros t; rewrite <- filter_In; split; apply Permutation_in;
      [apply Permutation_sym|]; exact P.
  - rewrite <- (Permutation_length P); apply List.filter_length_le.
Qed.

(** X17. The view holds the stored tasks that pass the filter, each as often as
    the store holds it and none else, whatever the sort key and whatever
    the comparator returns; it is empty for an empty store, and with no
    filter set it is a rearrangement of the whole store. *)
Theorem view_shows_exactly_visible (s : State) :
  Permutation (List.filter (visible s) (tasks s)) (filteredTasks s)
  /\ (forall t, In t (filteredTasks s) <-> In t (tasks s) /\ visible s t = true)
  /\ (List.length (filteredTasks s) <= List.length (tasks s))%nat
  /\ (tasks s = [] -> filteredTasks s = [])
  /\ (filter s = all -> searchTerm s = "" -> selectedCategory s = "" ->
      Permutation (tasks s) (filteredTasks s)).
Proof.
  destruct (view_shows_exactly_visible_core s) as (P & V & L).
  refine (conj P (conj V (conj L (conj _ _)))).
  - unfold filteredTasks; intros ->; reflexivity.
  - intros Hf Hs Hc; rewrite <- P, filter_all_true; auto.
    intros t _.
    unfold visible; rewrite Hf, Hs, Hc; destruct (completed t); reflexivity.
Qed.

Lemma visible_status (f : FilterType) (s : State) (t : Task) :
  visible (setFilter f s) t
  = visible (setFilter all s) t
    && match f with
       | all => true
       | active => negb (completed t)
       | completedOnly => completed t
       end.
Proof.
  unfold visible; simpl.
  destruct f, (completed t); simpl; rewrite ?andb_true_r, ?andb_false_r; reflexivity.
Qed.

(** X18. With the search term and the category fixed, the views of the active
    and of the completed tasks split the view of all tasks: each task of
    the latter is in exactly one of them, and their lengths add up. *)
Theorem status_filter_partitions (s : State) :
  (List.length (filteredTasks (setFilter active s))
   + List.length (filteredTasks (setFilter completedOnly s)))%nat
  = List.length (filteredTasks (setFilter all s))
  /\ Forall (fun t => completed t = false) (filteredTasks (setFilter active s))
  /\ Forall (fun t => completed t = true)
            (filteredTasks (setFilter completedOnly s))
  /\ (forall t, In t (filteredTasks (setFilter all s))
                <-> In t (filteredTasks (setFilter active s))
                    \/ In t (filteredTasks (setFilter completedOnly s))).
Proof.
  assert (V : forall f t,
             In t (filteredTasks (setFilter f s))
             <-> In t (tasks s) /\ visible (setFilter f s) t = true).
  { intros f t.
    apply (proj1 (proj2 (view_shows_exactly_visible_core (setFilter f s)))). }
  refine (conj _ (conj _ (conj _ _))).
  - unfold filteredTasks, sortTasks.
    rewrite <- !(Permutation_length (sort_perm _ _)); simpl.
    rewrite (filter_ext _ _ (visible_status active s)).
    rewrite (filter_ext _ _ (visible_status completedOnly s)).
    rewrite <- !filter_and.
    rewrite Nat.add_comm; apply filter_length.
  - apply Forall_forall; intros t Ht; apply V in Ht as [_ Ht].
    rewrite visible_status in Ht; apply andb_true_iff in Ht as [_ Ht].
    apply negb_true_iff; exact Ht.
  - apply Forall_forall; intros t Ht; apply V in Ht as [_ Ht].
    rewrite visible_status in Ht; apply andb_true_iff in Ht as [_ Ht].
    exact Ht.
  - intros t; rewrite !V, (visible_status active), (visible_status completedOnly).
    destruct (visible (setFilter all s) t), (completed t); simpl;
      intuition discriminate.
Qed.

(** X19. The search does not see letter case: two terms with the same lower
    case form give the same view. *)
Theorem search_ignores_case (term term' : string) (s : State) :
  JsString.toLowerCase term = JsString.toLowerCase term' ->
  filteredTasks (setSearchTerm term s) = filteredTasks (setSearchTerm term' s).
Proof.
  intros H; unfold filteredTasks; simpl; f_equal.
  apply filter_ext; intros t; unfold visible; simpl.
  rewrite <- (toLowerCase_empty term), <- (toLowerCase_empty term'), H.
  reflexivity.
Qed.

(** X20. The first task list pane: the invitation to add a first task is shown
    exactly when the store is empty, and the hint to adjust the filters
    exactly when the store has tasks and none passes the filter; otherwise
    the pane lists the view. *)
Theorem listPane_spec (s : State) :
  (listPane s = GetStarted <-> tasks s = [])
  /\ (listPane s = AdjustFilters
      <-> tasks s <> [] /\ forall t, In t (tasks s) -> visible s t = false)
  /\ (forall v, listPane s = Listing v <-> v = filteredTasks s /\ v <> []).
Proof.
  pose proof (view_shows_exactly_visible_core s) as (_ & V & _).
  unfold listPane.
  destruct (filteredTasks s) as [|x v'] eqn:E.
  - destruct (tasks s) as [|y l] eqn:T.
    + refine (conj _ (conj _ _)); split; try discriminate; auto.
      * intros [H _]; contradiction.
      * intros [-> H]; contradiction.
    + refine (conj _ (conj _ _)); split; try discriminate;
        try (intros; reflexivity).
      * intros _; split; [discriminate|].
        intros t Ht; destruct (visible s t) eqn:Hv; auto.
        exfalso; apply (proj2 (V t)); auto.
      * intros [-> H]; contradiction.
  - assert (T : tasks s <> []).
    { intros T; unfold filteredTasks in E; rewrite T in E; discriminate. }
    refine (conj _ (conj _ _)).
    + split; [discriminate | contradiction].
    + split; [discriminate|].
      intros [_ H]; assert (Hx : In x (tasks s) /\ visible s x = true)
        by (apply V; left; reflexivity).
      destruct Hx as [Hx Hv]; rewrite (H x Hx) in Hv; discriminate.
    + intros v; split.
      * intros [= <-]; split; [reflexivity | discriminate].
      * intros [-> _]; reflexivity.
Qed.

End ViewFurther.

Lemma search_ignores_case_witness :
  map title (@filteredTasks utcHost (setSearchTerm "MILK" (withTasks [milk; report])))
  = ["Buy Milk"]
  /\ @filteredTasks utcHost (setSearchTerm "MILK" (withTasks [milk; report]))
     = @filteredTasks utcHost (setSearchTerm "milk" (withTasks [milk; report])).
Proof.
  split; [reflexivity|].
  exact (@search_ignores_case utcHost "MILK" "milk" (withTasks [milk; report])
           eq_refl).
Defined.

(** ** More on the sort *)

Section SortFurther.

Context {host : Host}.

(** X21. Sorting by priority commutes with every filter, so the view of the
    active tasks is the view of all tasks with the completed ones left
    out; and sorting a list that is already sorted changes nothing. *)
Theorem sort_by_priority_commutes_with_filter (p : Task -> bool) (l : list Task) :
  sortTasks byPriority (List.filter p l)
  = List.filter p (sortTasks byPriority l)
  /\ sortTasks byPriority (sortTasks byPriority l) = sortTasks byPriority l.
Proof.
  destruct (sort_by_priority_descending_stable_core l) as (_ & Hs & Hst).
  split; symmetry; apply sort_by_priority_unique.
  - apply StronglySorted_filter; exact Hs.
  - intros k.
    rewrite (filter_filter_comm (hasRank k) p), Hst.
    apply filter_filter_comm.
  - exact Hs.
  - reflexivity.
Qed.

Lemma cmp_created_cases a b :
  sortCompare (compareTasks created) a b
  = match Date_parse (createdAt b), Date_parse (createdAt a) with
    | Some y, Some x => y - x
    | _, _ => 0
    end.
Proof.
  unfold sortCompare, compareTasks, Number_sub.
  destruct (Date_parse (createdAt b)), (Date_parse (createdAt a)); reflexivity.
Qed.

Ltac case_created t := destruct (Date_parse (createdAt t)) eqn:?.

(** X22. Sorted by creation date, a list of tasks whose creation times the host
    can read is rearranged newest first, and tasks created at the same
    time keep their input order. *)
Theorem sort_by_created_newest_first (l : list Task) :
  Forall (fun t => validCreatedAt t = true) l ->
  Permutation l (sortTasks created l)
  /\ StronglySorted createdBefore (sortTasks created l)
  /\ (forall k, List.filter (createdAtTime k) (sortTasks created l)
               = List.filter (createdAtTime k) l).
Proof.
  intros Hvalid; refine (conj _ (conj _ _)).
  - apply sort_perm.
  - apply (StronglySorted_weaken
             (fun x y => sortCompare (compareTasks created) x y <= 0)
             createdBefore (fun t => validCreatedAt t = true)).
    + intros x y Hx Hy; rewrite cmp_created_cases.
      unfold validCreatedAt, createdBefore in *.
      case_created x; case_created y; try discriminate; lia.
    + apply Forall_forall; intros t Ht.
      apply (Permutation_in _ (Permutation_sym (sort_perm _ _))) in Ht.
      rewrite Forall_forall in Hvalid; auto.
    + apply (sort_sorted _ (fun t => validCreatedAt t = true)); auto.
      * intros x y Hx Hy; rewrite !cmp_created_cases.
        unfold validCreatedAt in *.
        case_created x; case_created y; try discriminate; lia.
      * intros x y z Hx Hy Hz; rewrite !cmp_created_cases.
        unfold validCreatedAt in *.
        case_created x; case_created y; case_created z; try discriminate; lia.
  - intros k; apply sort_stable.
    intros x y _ _ Hx Hy; rewrite cmp_created_cases.
    unfold createdAtTime in *.
    case_created x; case_created y; try discriminate; lia.
Qed.

(** X23. Sorted alphabetically, on a host whose collation is a consistent
    comparison, a list of tasks is rearranged so that no title collates
    after the title of a later task, and tasks whose titles collate equal
    keep their input order. *)
Theorem sort_alphabetical_stable (l : list Task) :
  (forall x y, localeCompare x y <= 0 <-> 0 <= localeCompare y x) ->
  (forall x y z, localeCompare x y <= 0 -> localeCompare y z <= 0 ->
                 localeCompare x z <= 0) ->
  Permutation l (sortTasks alphabetical l)
  /\ StronglySorted titleBefore (sortTasks alphabetical l)
  /\ (forall x, List.filter (sameTitleClass x) (sortTasks alphabetical l)
               = List.filter (sameTitleClass x) l).
Proof.
  intros Hanti Htrans; refine (conj _ (conj _ _)).
  - apply sort_perm.
  - apply (sort_sorted (compareTasks alphabetical) (fun _ => True)).
    + intros x y _ _ H; simpl in *.
      apply Hanti; unfold sortCompare in H; simpl in H; lia.
    + intros x y z _ _ _; unfold sortCompare; simpl; apply Htrans.
    + apply Forall_forall; auto.
  - intros x; apply sort_stable.
    intros a b _ _ Ha Hb; unfold sortCompare, sameTitleClass in *; simpl.
    apply (Htrans _ (title x)).
    + apply Hanti; lia.
    + lia.
Qed.

End SortFurther.

Lemma sort_by_created_newest_first_witness :
  map title (@sortTasks utcHost created [milk; report; milk])
  = ["Write report"; "Buy Milk"; "Buy Milk"]
  /\ Permutation [milk; report; milk]
                 (@sortTasks utcHost created [milk; report; milk]).
Proof.
  split; [reflexivity|].
  refine (proj1 (@sort_by_created_newest_first utcHost [milk; report; milk] _)).
  repeat constructor.
Defined.

(** Comparison by code unit is a consistent comparison. *)
Lemma ascii_compare_eq_lt a b c :
  Ascii.compare a b = Lt -> Ascii.compare b c <> Gt -> Ascii.compare a c = Lt.
Proof.
  unfold Ascii.compare; rewrite N.compare_le_iff, !N.compare_lt_iff; lia.
Qed.

Lemma string_compare_trans_le : forall s1 s2 s3,
  String.compare s1 s2 <> Gt -> String.compare s2 s3 <> Gt ->
  String.compare s1 s3 <> Gt.
Proof.
  induction s1 as [|a s1 IH]; intros [|b s2] [|c s3]; simpl;
    try congruence.
  destruct (Ascii.compare a b) eqn:Eab; try congruence;
    destruct (Ascii.compare b c) eqn:Ebc; try congruence; intros H1 H2.
  - apply Ascii.compare_eq_iff in Eab, Ebc; subst.
    replace (Ascii.compare c c) with Eq; [apply IH with s2; auto|].
    unfold Ascii.compare; symmetry; apply N.compare_refl.
  - apply Ascii.compare_eq_iff in Eab; subst; rewrite Ebc; congruence.
  - apply Ascii.compare_eq_iff in Ebc; subst; rewrite Eab; congruence.
  - rewrite (ascii_compare_eq_lt a b c); congruence.
Qed.

Lemma ordinalCompare_antisym x y :
  ordinalCompare x y <= 0 <-> 0 <= ordinalCompare y x.
Proof.
  unfold ordinalCompare; rewrite (String.compare_antisym y x).
  destruct (String.compare x y); simpl; lia.
Qed.

Lemma ordinalCompare_trans x y z :
  ordinalCompare x y <= 0 -> ordinalCompare y z <= 0 -> ordinalCompare x z <= 0.
Proof.
  unfold ordinalCompare; intros H1 H2.
  pose proof (string_compare_trans_le x y z) as H.
  destruct (String.compare x y), (String.compare y z), (String.compare x z);
    try lia; exfalso; apply H; congruence.
Qed.

Lemma sort_alphabetical_stable_witness :
  map title (@sortTasks utcHost alphabetical [report; milk])
  = ["Buy Milk"; "Write report"]
  /\ StronglySorted (@titleBefore utcHost)
                    (@sortTasks utcHost alphabetical [report; milk]).
Proof.
  split; [reflexivity|].
  exact (proj1 (proj2 (@sort_alphabetical_stable utcHost [report; milk]
                         ordinalCompare_antisym ordinalCompare_trans))).
Defined.

(** ** The date label *)

Section LabelFacts.

Context {host : Host} {locale : Locale}.

(** X24. A due date whose date string is that of now is labelled [Today] and is
    not overdue, at whatever time of the day; an absent due date has the
    empty label and is not overdue either. *)
Theorem formatDate_today_not_overdue (now : Z) (due : string) :
  due <> "" ->
  toDateString (Date_parse due) = toDateString (Some now) ->
  formatDate now due = "Today"
  /\ isOverdue now due = false
  /\ formatDate now "" = ""
  /\ isOverdue now "" = false.
Proof.
  intros Hne Heq; apply isEmpty_false_iff in Hne.
  unfold formatDate, isOverdue; rewrite Hne; cbv zeta.
  rewrite Heq, String.eqb_refl, andb_false_r; repeat split.
Qed.

End LabelFacts.

Example formatDate_ex :
  map (@formatDate utcHost (fixedOffsetLocale 0) noon_2024_06_10)
      ["2024-06-10"; "2024-06-11"; "2024-06-30"; ""; "2024-06-09"]
  = ["Today"; "Tomorrow"; "2024-06-30T00:00:00.000Z"; "";
     "2024-06-09T00:00:00.000Z"].
Proof. reflexivity. Qed.

Lemma formatDate_today_not_overdue_witness :
  @formatDate utcHost (fixedOffsetLocale 0) noon_2024_06_10 "2024-06-10"
  = "Today"
  /\ @isOverdue utcHost noon_2024_06_10 "2024-06-10" = false.
Proof.
  pose proof (@formatDate_today_not_overdue utcHost (fixedOffsetLocale 0)
                noon_2024_06_10 "2024-06-10") as H.
  destruct H as (H1 & H2 & _); [discriminate | reflexivity |].
  split; [exact H1 | exact H2].
Defined.

(** ** The default view *)

Section DefaultView.

Context {host : Host}.

Lemma sort_sorted_id {A} (comparefn : A -> A -> Number) (l : list A) :
  StronglySorted (fun x y => sortCompare comparefn x y <= 0) l ->
  sort comparefn l = l.
Proof.
  induction 1 as [|x l Hs IH Hx]; simpl; auto.
  rewrite IH; destruct l as [|y l']; simpl; auto.
  inversion Hx as [|? ? Hy _]; subst.
  destruct (Z.ltb_spec 0 (sortCompare comparefn x y)); [lia | reflexivity].
Qed.

Lemma StronglySorted_Subseq {A} (R : A -> A -> Prop) (l1 l2 : list A) :
  Subseq l1 l2 -> StronglySorted R l2 -> StronglySorted R l1.
Proof.
  induction 1 as [| x l1 l2 Hsub IH | x l1 l2 Hsub IH]; intros Hs; auto.
  - inversion Hs; auto.
  - inversion Hs as [|? ? Hs' Hx]; subst; constructor; auto.
    rewrite Forall_forall in Hx |- *; intros y Hy.
    apply Hx, (Subseq_In l1 l2); auto.
Qed.

Lemma StronglySorted_snoc {A} (R : A -> A -> Prop) (l : list A) x :
  StronglySorted R l -> Forall (fun y => R y x) l ->
  StronglySorted R (l ++ [x])%list.
Proof.
  induction 1 as [|y l Hs IH Hy]; intros Hx; simpl.
  - repeat constructor.
  - inversion Hx as [|? ? Ryx Hl]; subst; constructor; auto.
    apply Forall_app; split; auto.
Qed.

Lemma StronglySorted_rev {A} (R : A -> A -> Prop) (l : list A) :
  StronglySorted R l -> StronglySorted (fun x y => R y x) (rev l).
Proof.
  induction 1 as [|x l Hs IH Hx]; simpl; [constructor|].
  apply StronglySorted_snoc; auto.
  rewrite Forall_forall in Hx |- *; intros y Hy.
  apply Hx, in_rev; exact Hy.
Qed.

Lemma created_sorted_of_times ts l :
  Forall2 createdWhen ts l ->
  (forall now, In now ts -> Date_parse (JsDate.toISOString now) = Some now) ->
  StronglySorted (fun x y => x <= y) (rev ts) ->
  StronglySorted (fun a b => sortCompare (compareTasks created) a b <= 0) l.
Proof.
  intros Hf Hparse Hs.
  apply StronglySorted_rev in Hs; rewrite rev_involutive in Hs.
  induction Hf as [|n t ts l Hn Hf IH]; [constructor|].
  inversion Hs as [|? ? Hs' Hge]; subst.
  constructor.
  - apply IH; auto; intros now Hnow; apply Hparse; right; exact Hnow.
  - clear IH Hs Hs'.
    induction Hf as [|m u ts l Hm Hf IH']; constructor.
    + inversion Hge as [|? ? Hmn _]; subst.
      rewrite cmp_created_cases.
      destruct Hn as [_ ->], Hm as [_ ->].
      rewrite (Hparse n), (Hparse m); simpl; auto; lia.
    + apply IH'.
      * intros now [<- | Hnow]; apply Hparse; simpl; auto.
      * inversion Hge; auto.
Qed.

Lemma run_keeps_filters acts : forall s,
  filter (run acts s) = filter s /\ sortBy (run acts s) = sortBy s
  /\ searchTerm (run acts s) = searchTerm s
  /\ selectedCategory (run acts s) = selectedCategory s.
Proof.
  induction acts as [|a acts IH]; intros s; simpl; auto.
  destruct (IH (step s a)) as (-> & -> & -> & ->).
  destruct a; simpl; auto.
  - unfold addTask; destruct (JsString.isEmpty _); auto.
  - unfold updateTask; destruct (editingTask s); auto.
    destruct (JsString.isEmpty _); auto.
Qed.

(** X25. In a session that starts from the empty store, on a host that
    reads back the creation times it wrote and whose clock never ran
    backwards between two runs of [addTask], the default view, sorted by
    creation date with no filter set, is the store itself, task by task in
    the order of the store. *)
Theorem default_view_is_the_store (acts : list Action) :
  StronglySorted (fun x y => x <= y) (addTimes acts) ->
  (forall now, In now (addTimes acts) ->
               Date_parse (JsDate.toISOString now) = Some now) ->
  filteredTasks (run acts initialState) = tasks (run acts initialState).
Proof.
  intros Hclock Hparse.
  destruct (run_keeps_filters acts initialState) as (Hf & Hk & Ht & Hc).
  destruct (run_created acts initialState []) as (ts & Hsub & Hcr).
  { exists []; split; constructor. }
  simpl in Hsub.
  unfold filteredTasks, sortTasks; rewrite Hk; simpl.
  rewrite filter_all_true.
  - apply sort_sorted_id.
    apply (created_sorted_of_times ts); auto.
    + intros now Hnow; apply Hparse, in_rev, (Subseq_In ts); auto.
    + apply StronglySorted_rev.
      apply (StronglySorted_Subseq _ ts (rev (addTimes acts))); auto.
      apply (StronglySorted_rev (fun x y => x <= y)); auto.
  - intros t _; unfold visible; rewrite Hf, Ht, Hc; simpl.
    destruct (completed t); reflexivity.
Qed.

End DefaultView.

Lemma default_view_is_the_store_witness :
  let acts := [SetFormData (draft "Buy milk" ""); AddTask 1718020800000;
               SetFormData (draft "Write report" ""); AddTask 1718020800001;
               ToggleTask 1718020800002 "1718020800000"] in
  map title (tasks (run acts initialState)) = ["Write report"; "Buy milk"]
  /\ @filteredTasks utcHost (run acts initialState)
     = tasks (run acts initialState).
Proof.
  intros acts; split; [reflexivity|].
  apply (@default_view_is_the_store utcHost acts).
  - repeat constructor; simpl; lia.
  - intros now [<- | [<- | []]]; reflexivity.
Defined.
